(** * Alert classification and notification gatekeeper of the sensor dashboard

    A shallow embedding of the [/send-alert] handler of [src/server.js]
    (both revisions found in the file) and of the polling client
    [fetchData] of [src/frontend/src/App.tsx].

    - JavaScript numbers are IEEE-754 binary64 values, modelled with the
      standard library's [spec_float] and its comparison functions.
    - Request bodies are JSON values.
    - The module-level variable [lastAlertType] is an explicit store cell.
      Handler code is written in a small program monad [Prog] whose
      operations are the effects the handler performs: reading and writing
      the cell, logging, throwing, and awaiting [transporter.sendMail].
    - An [await] is the only place where another request can run; the
      request pool ([Pool], [pool_step]) schedules handlers accordingly. *)

From Stdlib Require Import ZArith Bool String List Lia.
From Stdlib Require Import Floats.SpecFloat.
From stdpp Require Import base option list.

Local Open Scope string_scope.
Local Open Scope list_scope.

(** ** JavaScript numbers *)

Module JsNum.

(** A JavaScript number is a binary64 value. *)
Definition t : Type := spec_float.

Definition prec : Z := 53.
Definition emax : Z := 1024.

(** The number denoted by an integer literal. *)
Definition of_Z (z : Z) : t := binary_normalize prec emax z 0 false.

(** The number denoted by a decimal literal with value [n / d]: the
    quotient rounded to nearest, for [n] and [d] below 2^53. *)
Definition of_ratio (n d : Z) : t := SFdiv prec emax (of_Z n) (of_Z d).

Definition Infinity : t := S754_infinity false.

(** [a > b], [a <= b], [a === b] on numbers. *)
Definition gt (a b : t) : bool := SFltb b a.
Definition le (a b : t) : bool := SFleb a b.
Definition lt (a b : t) : bool := SFltb a b.
Definition strict_eq (a b : t) : bool := SFeqb a b.

(** [Number.isFinite]. *)
Definition is_finite (a : t) : bool :=
  match a with
  | S754_zero _ | S754_finite _ _ _ => true
  | S754_infinity _ | S754_nan => false
  end.

(** Well-formed binary64 representations. *)
Definition valid (a : t) : bool := valid_binary prec emax a.

End JsNum.

(** ** JSON values and the JavaScript operations the handler applies to them *)

#[warnings="-register-all"]
Inductive JsValue : Type :=
| JUndefined
| JNull
| JBool (b : bool)
| JNumber (n : JsNum.t)
| JString (s : string)
| JArray (items : list JsValue)
| JObject (fields : list (string * JsValue)).

(** Own-property lookup in a field list; each key occurs once. *)
Fixpoint assoc {A : Type} (key : string) (fields : list (string * A)) : option A :=
  match fields with
  | [] => None
  | (k, v) :: rest => if String.eqb key k then Some v else assoc key rest
  end.

(** [v.key] for a value [v] that is neither [undefined] nor [null]: a missing
    property, or any named property of a primitive or an array, is
    [undefined]. *)
Definition get_prop (v : JsValue) (key : string) : JsValue :=
  match v with
  | JObject fields => default JUndefined (assoc key fields)
  | _ => JUndefined
  end.

(** [!v] is [negb (truthy v)]. *)
Definition truthy (v : JsValue) : bool :=
  match v with
  | JUndefined | JNull => false
  | JBool b => b
  | JNumber n =>
      match n with
      | S754_zero _ | S754_nan => false
      | _ => true
      end
  | JString s => negb (String.eqb s "")
  | JArray _ | JObject _ => true
  end.

(** [typeof v === 'number']. *)
Definition is_number (v : JsValue) : bool :=
  match v with
  | JNumber _ => true
  | _ => false
  end.

(** ** Alert types *)

Inductive AlertType : Type := normal | short_circuit | low_current.

#[global] Instance AlertType_eq_dec : EqDecision AlertType.
Proof. solve_decision. Defined.

(** [a === b] on the three alert-type strings. *)
Definition alert_eqb (a b : AlertType) : bool := bool_decide (a = b).

(** ** Classification (server.js lines 97-103, App.tsx lines 133-141) *)

(** The value of [currentAlertType] computed by the server. *)
Definition classify (current : JsNum.t) : AlertType :=
  if JsNum.gt current (JsNum.of_Z 11) then short_circuit
  else if JsNum.strict_eq current (JsNum.of_Z 0) then low_current
  else normal.

(** The value of [currentAlertType] computed by the client. *)
Definition client_classify (current : JsNum.t) : AlertType :=
  let shortCircuitDetected := JsNum.gt current (JsNum.of_Z 11) in
  let lowCurrentDetected := JsNum.strict_eq current (JsNum.of_Z 0) in
  if shortCircuitDetected then short_circuit
  else if lowCurrentDetected then low_current
  else normal.

(** ** Effects of a handler *)

Record Mail : Type := mkMail {
  mail_kind : AlertType;       (* which of the two templates and subjects *)
  mail_current : JsNum.t;      (* the three interpolated readings *)
  mail_voltage : JsNum.t;
  mail_power : JsNum.t
}.

Inductive JsError : Type :=
| TypeError (property : string)      (* the property cannot be used as the code uses it *)
| DeliveryError (details : string).  (* [sendMail] rejected *)

Inductive MailResult : Type :=
| Delivered
| Rejected (details : string).

Inductive LogLine : Type :=
| LogUnchanged (current : AlertType)          (* line 107 *)
| LogNewState (last current : AlertType)      (* line 114 *)
| LogError (e : JsError).                     (* line 164 *)

Inductive Response : Type :=
| BadRequest                       (* 400, "Invalid sensor data" *)
| NoAlert                          (* 200, success: false *)
| AlertSent (kind : AlertType)     (* 200, success: true *)
| WithinLimits                     (* 200 of the earlier revision *)
| AlertSentEarlier                 (* 200, success: true, of the earlier revision *)
| ServerError (e : JsError).       (* 500, "Failed to send alert email" *)

(** Handler code: a tree of effects ending in the response sent. *)
Inductive Prog (A : Type) : Type :=
| Ret (a : A)
| Throw (e : JsError)
| ReadLast (k : AlertType -> Prog A)
| WriteLast (v : AlertType) (k : Prog A)
| ConsoleLog (l : LogLine) (k : Prog A)
| AwaitSendMail (m : Mail) (k : MailResult -> Prog A).

Arguments Ret {A} a.
Arguments Throw {A} e.
Arguments ReadLast {A} k.
Arguments WriteLast {A} v k.
Arguments ConsoleLog {A} l k.
Arguments AwaitSendMail {A} m k.

Fixpoint bind {A B : Type} (p : Prog A) (f : A -> Prog B) : Prog B :=
  match p with
  | Ret a => f a
  | Throw e => Throw e
  | ReadLast k => ReadLast (fun v => bind (k v) f)
  | WriteLast v k => WriteLast v (bind k f)
  | ConsoleLog l k => ConsoleLog l (bind k f)
  | AwaitSendMail m k => AwaitSendMail m (fun r => bind (k r) f)
  end.

(** [try { p } catch (error) { h error }]. *)
Fixpoint try_catch {A : Type} (p : Prog A) (h : JsError -> Prog A) : Prog A :=
  match p with
  | Ret a => Ret a
  | Throw e => h e
  | ReadLast k => ReadLast (fun v => try_catch (k v) h)
  | WriteLast v k => WriteLast v (try_catch k h)
  | ConsoleLog l k => ConsoleLog l (try_catch k h)
  | AwaitSendMail m k => AwaitSendMail m (fun r => try_catch (k r) h)
  end.

#[global] Instance Prog_ret : MRet Prog := @Ret.
#[global] Instance Prog_bind : MBind Prog := fun A B f p => bind p f.

Definition read_last : Prog AlertType := ReadLast Ret.
Definition write_last (v : AlertType) : Prog unit := WriteLast v (Ret tt).
Definition console_log (l : LogLine) : Prog unit := ConsoleLog l (Ret tt).

(** [await transporter.sendMail(m)]: a rejection is thrown at the [await]. *)
Definition send_mail (m : Mail) : Prog unit :=
  AwaitSendMail m (fun r =>
    match r with
    | Delivered => Ret tt
    | Rejected details => Throw (DeliveryError details)
    end).

(** [sensorData.<key>.toFixed(1)]: a [TypeError] unless the property is a
    number.  The formatted text is kept as the number itself. *)
Definition to_fixed (sensorData : JsValue) (key : string) : Prog JsNum.t :=
  match get_prop sensorData key with
  | JNumber n => Ret n
  | _ => Throw (TypeError key)
  end.

(** Conversion of a JSON value to a primitive, as [new Date(v)] and
    [`${v}`] perform it, throws a [TypeError] for an object with an own
    property [toString] (no JSON value is callable, and [valueOf] then
    returns the object) and for an array one of whose elements throws in
    [join]. *)
Fixpoint to_primitive_throws (v : JsValue) : bool :=
  match v with
  | JObject fields =>
      match assoc "toString" fields with
      | Some _ => true
      | None => false
      end
  | JArray items => existsb to_primitive_throws items
  | _ => false
  end.

(** [new Date(sensorData.<key>)] and [`${sensorData.<key>}`], for their
    exception only. *)
Definition to_primitive (sensorData : JsValue) (key : string) : Prog unit :=
  if to_primitive_throws (get_prop sensorData key)
  then Throw (TypeError key)
  else Ret tt.

(** Lines 126-153 (293-360 in the earlier revision): the date of line 126,
    then the template literal, evaluated left to right.  The email keeps
    which template was chosen and the three numbers; its text is not
    modelled (the two revisions word it differently). *)
Definition build_mail (sensorData : JsValue) (kind : AlertType) : Prog Mail :=
  to_primitive sensorData "timestamp";;
  c ← to_fixed sensorData "current";
  v ← to_fixed sensorData "voltage";
  p ← to_fixed sensorData "power";
  to_primitive sensorData "_id";;
  mret (mkMail kind c v p).

(** Lines 163-169. *)
Definition catch_500 (error : JsError) : Prog Response :=
  console_log (LogError error);;
  mret (ServerError error).

(** ** The [/send-alert] handler (server.js lines 88-170) *)
Definition send_alert (sensorData : JsValue) : Prog Response :=
  try_catch
    (match truthy sensorData, get_prop sensorData "current" with
     | true, JNumber current =>
         let currentAlertType := classify current in
         lastAlertType ← read_last;
         if alert_eqb currentAlertType normal
            || alert_eqb currentAlertType lastAlertType
         then
           console_log (LogUnchanged currentAlertType);;
           write_last currentAlertType;;
           mret NoAlert
         else
           lastAlertType' ← read_last;
           console_log (LogNewState lastAlertType' currentAlertType);;
           write_last currentAlertType;;
           mailOptions ← build_mail sensorData currentAlertType;
           send_mail mailOptions;;
           mret (AlertSent currentAlertType)
     | _, _ => mret BadRequest
     end)
    catch_500.

(** ** The earlier revision of the handler (server.js lines 270-377) *)
Definition send_alert_superseded (sensorData : JsValue) : Prog Response :=
  try_catch
    (match truthy sensorData, get_prop sensorData "current" with
     | true, JNumber current =>
         if JsNum.le current (JsNum.of_Z 12) then mret WithinLimits
         else
           mailOptions ← build_mail sensorData short_circuit;
           send_mail mailOptions;;
           mret AlertSentEarlier
     | _, _ => mret BadRequest
     end)
    catch_500.

(** Lines 117-162 of the handler, inside its [try]: what runs once
    [lastAlertType] has been updated for a new event. *)
Definition dispatch (sensorData : JsValue) (currentAlertType : AlertType)
    : Prog Response :=
  try_catch
    (mailOptions ← build_mail sensorData currentAlertType;
     send_mail mailOptions;;
     mret (AlertSent currentAlertType))
    catch_500.

(** The reading a request carries when it passes the check of lines 92-95. *)
Definition validated (sensorData : JsValue) : option JsNum.t :=
  match truthy sensorData, get_prop sensorData "current" with
  | true, JNumber current => Some current
  | _, _ => None
  end.

(** Lines 105-115 on their own: the new value of [lastAlertType] and whether
    the handler goes on to step 3. *)
Definition gatekeeper (lastAlertType currentAlertType : AlertType) : AlertType * bool :=
  if alert_eqb currentAlertType normal || alert_eqb currentAlertType lastAlertType
  then (currentAlertType, false)
  else (currentAlertType, true).

(** ** Running a handler *)

Inductive Event : Type :=
| EvLog (l : LogLine)
| EvWrite (v : AlertType)       (* assignment to [lastAlertType] *)
| EvSendMail (m : Mail).        (* call of [transporter.sendMail] *)

Record Outcome : Type := mkOutcome {
  final : AlertType;                    (* [lastAlertType] afterwards *)
  trace : list Event;                   (* effects, in program order *)
  response : Response + JsError         (* response sent, or uncaught error *)
}.

(** One request run to completion on its own; [mailer] is the mail service. *)
Fixpoint run (mailer : Mail -> MailResult) (p : Prog Response)
    (lastAlertType : AlertType) : Outcome :=
  match p with
  | Ret r => mkOutcome lastAlertType [] (inl r)
  | Throw e => mkOutcome lastAlertType [] (inr e)
  | ReadLast k => run mailer (k lastAlertType) lastAlertType
  | WriteLast v k =>
      let o := run mailer k v in
      mkOutcome (final o) (EvWrite v :: trace o) (response o)
  | ConsoleLog l k =>
      let o := run mailer k lastAlertType in
      mkOutcome (final o) (EvLog l :: trace o) (response o)
  | AwaitSendMail m k =>
      let o := run mailer (k (mailer m)) lastAlertType in
      mkOutcome (final o) (EvSendMail m :: trace o) (response o)
  end.

Definition is_new_state (e : Event) : bool :=
  match e with
  | EvLog (LogNewState _ _) => true
  | _ => false
  end.

Definition is_send_mail (e : Event) : bool :=
  match e with
  | EvSendMail _ => true
  | _ => false
  end.

Definition is_write (e : Event) : bool :=
  match e with
  | EvWrite _ => true
  | _ => false
  end.

(** The handler reached step 3 (line 112): a new alert-worthy event. *)
Definition shouldNotify (o : Outcome) : bool := existsb is_new_state (trace o).

(** [transporter.sendMail] was called. *)
Definition dispatched (o : Outcome) : bool := existsb is_send_mail (trace o).

(** The value of [lastAlertType] after the effects [evs]. *)
Definition store_after (lastAlertType : AlertType) (evs : list Event) : AlertType :=
  fold_left (fun s e => match e with EvWrite v => v | _ => s end) evs lastAlertType.

(** A request together with what the mail service will answer to it. *)
Definition Request : Type := JsValue * MailResult.

Definition serve (lastAlertType : AlertType) (req : Request) : Outcome :=
  run (fun _ => snd req) (send_alert (fst req)) lastAlertType.

(** Requests handled one after the other. *)
Fixpoint serve_all (lastAlertType : AlertType) (reqs : list Request) : list Outcome :=
  match reqs with
  | [] => []
  | req :: rest =>
      let o := serve lastAlertType req in
      o :: serve_all (final o) rest
  end.

(** [lastAlertType] after [serve_all]. *)
Definition final_all (lastAlertType : AlertType) (reqs : list Request) : AlertType :=
  fold_left (fun s req => final (serve s req)) reqs lastAlertType.

(** The gatekeeper applied to a sequence of conditions. *)
Fixpoint gatekeeper_all (lastAlertType : AlertType) (conds : list AlertType) : list bool :=
  match conds with
  | [] => []
  | c :: rest => snd (gatekeeper lastAlertType c) :: gatekeeper_all (fst (gatekeeper lastAlertType c)) rest
  end.

(** The four notifying edges, as the state machine summary lists them. *)
Definition notifying_edge (previous current : AlertType) : bool :=
  match previous, current with
  | normal, short_circuit
  | normal, low_current
  | short_circuit, low_current
  | low_current, short_circuit => true
  | _, _ => false
  end.

(** Which steps of a walk through the conditions [conds], started in
    [previous], are notifying edges. *)
Fixpoint edges_along (previous : AlertType) (conds : list AlertType) : list bool :=
  match conds with
  | [] => []
  | c :: rest => notifying_edge previous c :: edges_along c rest
  end.

(** Value of [lastAlertType] at process start (line 42). *)
Definition initial : AlertType := normal.

(** A well-formed reading: the body the client posts for finite readings. *)
Definition reading (current voltage power : JsNum.t) : JsValue :=
  JObject [("_id", JString "id"); ("voltage", JNumber voltage);
           ("current", JNumber current); ("power", JNumber power);
           ("timestamp", JString "2025-01-01T00:00:00.000Z")].

(** A reading of [a] amperes at 230 V. *)
Definition amps (a : Z) : JsValue :=
  reading (JsNum.of_Z a) (JsNum.of_Z 230) (JsNum.of_Z (230 * a)).

(** ** The request pool: handlers interleaved at their [await]s *)

Inductive Task : Type :=
| Ready (p : Prog Response)                                (* not yet started *)
| Awaiting (m : Mail) (k : MailResult -> Prog Response)    (* suspended at line 156 *)
| Done (r : Response)
| Crashed (e : JsError).

(** What one turn of a handler leaves behind. *)
Record Turn : Type := mkTurn {
  turn_last : AlertType;        (* [lastAlertType] at the end of the turn *)
  turn_events : list Event;     (* effects of the turn, in order *)
  turn_task : Task              (* what is left of the request *)
}.

(** One uninterrupted turn of the event loop: the code runs up to its next
    [await] or to its end. *)
Fixpoint advance (p : Prog Response) (lastAlertType : AlertType) : Turn :=
  match p with
  | Ret r => mkTurn lastAlertType [] (Done r)
  | Throw e => mkTurn lastAlertType [] (Crashed e)
  | ReadLast k => advance (k lastAlertType) lastAlertType
  | WriteLast v k =>
      let t := advance k v in
      mkTurn (turn_last t) (EvWrite v :: turn_events t) (turn_task t)
  | ConsoleLog l k =>
      let t := advance k lastAlertType in
      mkTurn (turn_last t) (EvLog l :: turn_events t) (turn_task t)
  | AwaitSendMail m k => mkTurn lastAlertType [EvSendMail m] (Awaiting m k)
  end.

Record Pool : Type := mkPool {
  pool_last : AlertType;               (* the shared [lastAlertType] *)
  pool_tasks : list Task;              (* in-flight requests *)
  pool_trace : list (nat * Event)      (* effects, tagged with their request *)
}.

Inductive Choice : Type :=
| Start (i : nat)                      (* request [i] gets its first turn *)
| Settle (i : nat) (r : MailResult).   (* the mail promise of [i] settles *)

Definition turn (i : nat) (p : Prog Response) (P : Pool) : Pool :=
  let t := advance p (pool_last P) in
  mkPool (turn_last t) (<[i := turn_task t]> (pool_tasks P))
         (pool_trace P ++ map (pair i) (turn_events t)).

Definition pool_step (c : Choice) (P : Pool) : option Pool :=
  match c with
  | Start i =>
      match pool_tasks P !! i with
      | Some (Ready p) => Some (turn i p P)
      | _ => None
      end
  | Settle i r =>
      match pool_tasks P !! i with
      | Some (Awaiting m k) => Some (turn i (k r) P)
      | _ => None
      end
  end.

Fixpoint run_schedule (sched : list Choice) (P : Pool) : option Pool :=
  match sched with
  | [] => Some P
  | c :: rest =>
      match pool_step c P with
      | Some P' => run_schedule rest P'
      | None => None
      end
  end.

(** Requests arriving together while [lastAlertType] is [s]. *)
Definition arrive (s : AlertType) (bodies : list JsValue) : Pool :=
  mkPool s ((fun b => Ready (send_alert b)) <$> bodies) [].

Definition started (t : Task) : bool :=
  match t with
  | Ready _ => false
  | _ => true
  end.

Definition notified_in (i : nat) (tr : list (nat * Event)) : bool :=
  existsb (fun ie => Nat.eqb (fst ie) i && is_new_state (snd ie)) tr.

(** Request [i] reached step 3. *)
Definition notified (i : nat) (P : Pool) : bool := notified_in i (pool_trace P).

(** Code that neither assigns [lastAlertType] nor logs a new alert state. *)
Fixpoint quiet {A : Type} (p : Prog A) : Prop :=
  match p with
  | Ret _ | Throw _ => True
  | ReadLast k => forall v, quiet (k v)
  | WriteLast _ _ => False
  | ConsoleLog l k => is_new_state (EvLog l) = false /\ quiet k
  | AwaitSendMail _ k => forall r, quiet (k r)
  end.

(** A started task whose remaining code is [quiet]. *)
Definition task_quiet (t : Task) : Prop :=
  match t with
  | Ready _ => False
  | Awaiting _ k => forall r, quiet (k r)
  | Done _ | Crashed _ => True
  end.

(** The pool invariant for requests [bodies] that arrived together in
    state [normal] and all read the same fault [c]: either none has run, or
    request [n] was notified and every other one is still waiting for its
    first turn or was answered "no alert". *)
Definition won (c : AlertType) (bodies : list JsValue) (n : nat) (P : Pool) : Prop :=
  pool_last P = c /\
  length (pool_tasks P) = length bodies /\
  (exists t, pool_tasks P !! n = Some t /\ task_quiet t) /\
  notified n P = true /\
  (forall j, j <> n ->
     notified j P = false /\
     (forall t, pool_tasks P !! j = Some t ->
        (exists b, bodies !! j = Some b /\ t = Ready (send_alert b)) \/ t = Done NoAlert)).

Definition pool_inv (c : AlertType) (bodies : list JsValue) (P : Pool) : Prop :=
  P = arrive normal bodies \/ exists n, won c bodies n P.

(** The body [{"current": 1e999}]: JSON.parse reads the number as Infinity. *)
Definition overflow_body : JsValue := JObject [("current", JNumber JsNum.Infinity)].

(** What C8 asks of a body: its [current] is a finite number. *)
Definition current_is_finite (sensorData : JsValue) : bool :=
  match get_prop sensorData "current" with
  | JNumber n => JsNum.is_finite n
  | _ => false
  end.

(** ** The polling client (App.tsx lines 92-182) *)

Record SensorData : Type := mkSensorData {
  sd_id : string;
  sd_voltage : JsNum.t;
  sd_current : JsNum.t;
  sd_power : JsNum.t;
  sd_timestamp : option Z      (* a [Date]; [None] is an invalid date *)
}.

(** A number after [JSON.stringify] and [JSON.parse]: non-finite numbers
    become [null] and the sign of zero is lost. *)
Definition json_number (n : JsNum.t) : JsValue :=
  match n with
  | S754_zero _ => JNumber (S754_zero false)
  | S754_finite _ _ _ => JNumber n
  | S754_infinity _ | S754_nan => JNull
  end.

(** A reading with finite fields and a valid date. *)
Definition well_formed (d : SensorData) : bool :=
  JsNum.is_finite (sd_voltage d) && JsNum.is_finite (sd_current d)
  && JsNum.is_finite (sd_power d) && bool_decide (sd_timestamp d <> None).

(** Lines 47-62: the body that reaches the server, or [None] when
    [toISOString] throws and nothing is posted. *)
Definition sendEmailAlert (sensorData : SensorData) : option JsValue :=
  match sd_timestamp sensorData with
  | None => None
  | Some _ =>
      Some (JObject [("_id", JString (sd_id sensorData));
                     ("voltage", json_number (sd_voltage sensorData));
                     ("current", json_number (sd_current sensorData));
                     ("power", json_number (sd_power sensorData));
                     ("timestamp", JString "iso")])
  end.

(** Lines 132-175: the new [lastAlertTypeRef.current] and the call made. *)
Definition fetchData (lastAlertTypeRef : AlertType) (newData : SensorData)
    : AlertType * option JsValue :=
  let currentAlertType := client_classify (sd_current newData) in
  (currentAlertType,
   if negb (alert_eqb currentAlertType normal)
      && negb (alert_eqb currentAlertType lastAlertTypeRef)
   then sendEmailAlert newData
   else None).

(** Client and server together. *)
Record Flow : Type := mkFlow {
  client_ref : AlertType;     (* [lastAlertTypeRef.current] *)
  server_last : AlertType     (* [lastAlertType] *)
}.

(** One polling cycle; the request, if any, is handled before the next
    cycle.  The result says whether an email was dispatched. *)
Definition poll (f : Flow) (cycle : SensorData * MailResult) : Flow * bool :=
  let '(ref', call) := fetchData (client_ref f) (fst cycle) in
  match call with
  | None => (mkFlow ref' (server_last f), false)
  | Some body =>
      let o := serve (server_last f) (body, snd cycle) in
      (mkFlow ref' (final o), dispatched o)
  end.

Fixpoint poll_all (f : Flow) (cycles : list (SensorData * MailResult))
    : Flow * list bool :=
  match cycles with
  | [] => (f, [])
  | c :: rest =>
      let '(f', sent) := poll f c in
      let '(f'', sents) := poll_all f' rest in
      (f'', sent :: sents)
  end.

(** A well-formed reading of [a] amperes. *)
Definition sample (a : Z) : SensorData :=
  mkSensorData "id" (JsNum.of_Z 230) (JsNum.of_Z a) (JsNum.of_Z (230 * a)) (Some 0%Z).

Definition fresh : Flow := mkFlow normal normal.

(** ** More of the server *)

(** The emails a run hands to [transporter.sendMail], in order. *)
Definition mails_sent (o : Outcome) : list Mail :=
  omap (fun e => match e with EvSendMail m => Some m | _ => None end) (trace o).

(** One request to the earlier revision, run to completion. *)
Definition serve_superseded (lastAlertType : AlertType) (req : Request) : Outcome :=
  run (fun _ => snd req) (send_alert_superseded (fst req)) lastAlertType.

(** A request whose three readings are numbers, the current above 12, and
    whose [timestamp] and [_id] convert to primitives. *)
Definition over_limit (req : Request) : bool :=
  match validated (fst req), get_prop (fst req) "voltage", get_prop (fst req) "power" with
  | Some current, JNumber _, JNumber _ =>
      JsNum.gt current (JsNum.of_Z 12)
      && negb (to_primitive_throws (get_prop (fst req) "timestamp"))
      && negb (to_primitive_throws (get_prop (fst req) "_id"))
  | _, _, _ => false
  end.

(** The [sendMail] calls recorded in a pool trace, with their request. *)
Definition mails_in (tr : list (nat * Event)) : list (nat * Mail) :=
  omap (fun ie => match snd ie with
                  | EvSendMail m => Some (fst ie, m)
                  | _ => None
                  end) tr.

(** Code that does not call [sendMail]. *)
Fixpoint mailless {A : Type} (p : Prog A) : Prop :=
  match p with
  | Ret _ | Throw _ => True
  | ReadLast k => forall v, mailless (k v)
  | WriteLast _ k => mailless k
  | ConsoleLog _ k => mailless k
  | AwaitSendMail _ _ => False
  end.

(** Pool invariant for requests [bodies] that arrived together in state
    [normal] and all read the fault [c]: once any of them has run,
    [lastAlertType] is [c], at most one email was handed over, a request
    still waiting is an untouched handler and a suspended one has nothing
    left to write or send. *)
Definition one_mail_inv (c : AlertType) (bodies : list JsValue) (P : Pool) : Prop :=
  P = arrive normal bodies \/
  (pool_last P = c /\
   length (mails_in (pool_trace P)) <= 1 /\
   forall i t, pool_tasks P !! i = Some t ->
     match t with
     | Ready p => exists b, bodies !! i = Some b /\ p = send_alert b
     | Awaiting _ k => forall r, quiet (k r) /\ mailless (k r)
     | Done _ | Crashed _ => True
     end).

(** One entry of [os.networkInterfaces()]. *)
Record InterfaceDetails : Type := mkDetails {
  ni_family : string;
  ni_internal : bool;
  ni_address : string
}.

(** The inner [for] loop of [getLocalIP] (server.js lines 178-183). *)
Fixpoint scan_iface (iface : list InterfaceDetails) : option string :=
  match iface with
  | [] => None
  | details :: rest =>
      if String.eqb (ni_family details) "IPv4" && negb (ni_internal details)
      then Some (ni_address details)
      else scan_iface rest
  end.

(** The outer [for ... in] loop (lines 176-184); [interfaces] lists the
    properties of the object in enumeration order. *)
Fixpoint scan_interfaces (interfaces : list (string * list InterfaceDetails))
    : option string :=
  match interfaces with
  | [] => None
  | (ifaceName, iface) :: rest =>
      match scan_iface iface with
      | Some address => Some address
      | None => scan_interfaces rest
      end
  end.

(** [getLocalIP] (server.js lines 174-186, the same in both revisions). *)
Definition getLocalIP (interfaces : list (string * list InterfaceDetails)) : string :=
  match scan_interfaces interfaces with
  | Some address => address
  | None => "127.0.0.1"
  end.

(** The entries [getLocalIP] is looking for. *)
Definition external_ipv4 (details : InterfaceDetails) : bool :=
  String.eqb (ni_family details) "IPv4" && negb (ni_internal details).

(** ** What the server answers over HTTP *)

Record Reply : Type := mkReply {
  reply_status : Z;
  reply_json : JsValue
}.

Definition alert_name (a : AlertType) : string :=
  match a with
  | normal => "normal"
  | short_circuit => "short_circuit"
  | low_current => "low_current"
  end.

(** [error.message]; the text of a [TypeError] is the engine's and is kept
    as the name of the property. *)
Definition error_message (e : JsError) : string :=
  match e with
  | TypeError property => property
  | DeliveryError details => details
  end.

(** The [res.status(...).json(...)] calls of server.js: lines 94, 109,
    158-162 and 165-168, and lines 281 and 364-369 of the earlier
    revision. *)
Definition http_reply (r : Response) : Reply :=
  match r with
  | BadRequest =>
      mkReply 400 (JObject [("error", JString "Invalid sensor data")])
  | NoAlert =>
      mkReply 200 (JObject [("success", JBool false);
                            ("message", JString "Condition is unchanged or normal. No new alert sent.")])
  | AlertSent kind =>
      mkReply 200 (JObject [("success", JBool true);
                            ("message", JString ("Alert email for " ++ alert_name kind
                                                 ++ " sent successfully"));
                            ("recipient", JString "j.joshuasamraj@gmail.com")])
  | WithinLimits =>
      mkReply 200 (JObject [("message", JString "Current within normal limits, no email sent")])
  | AlertSentEarlier =>
      mkReply 200 (JObject [("success", JBool true);
                            ("message", JString "Alert email sent successfully");
                            ("recipient", JString "j.joshuasamraj@gmail.com")])
  | ServerError e =>
      mkReply 500 (JObject [("error", JString "Failed to send alert email");
                            ("details", JString (error_message e))])
  end.

(** ** More of the client (App.tsx) *)

(** What [fetch] gives back. *)
Inductive NetResult : Type :=
| FetchFailed                 (* the promise rejects *)
| Replied (r : Reply).

(** The values [setEmailStatus] is called with (lines 68, 76, 82, 87). *)
Inductive EmailStatus : Type :=
| StatusDemoSent                     (* line 68 *)
| StatusSent (message : JsValue)     (* line 76 *)
| StatusFailed (error : JsValue)     (* line 82 *)
| StatusServiceError.                (* line 87 *)

(** [response.ok]. *)
Definition reply_ok (r : Reply) : bool :=
  (200 <=? reply_status r)%Z && (reply_status r <=? 299)%Z.

(** Lines 64-84: what is done with the reply; [None] when [setEmailStatus]
    is not called. *)
Definition on_reply (net : NetResult) : option EmailStatus :=
  match net with
  | FetchFailed => Some StatusServiceError
  | Replied r =>
      if negb (reply_ok r) then
        if (reply_status r =? 404)%Z then Some StatusDemoSent
        else Some StatusServiceError
      else
        match reply_json r with
        | JUndefined | JNull => Some StatusServiceError
        | result =>
            if truthy (get_prop result "success")
            then Some (StatusSent (get_prop result "message"))
            else if truthy (get_prop result "message") then None
            else Some (StatusFailed (get_prop result "error"))
        end
  end.

(** [sendEmailAlert] as a whole (lines 47-89): the new email status, if
    any, given what the network answers to the posted body. *)
Definition email_status (sensorData : SensorData) (net : JsValue -> NetResult)
    : option EmailStatus :=
  match sendEmailAlert sensorData with
  | None => Some StatusServiceError
  | Some body => on_reply (net body)
  end.

Record Alert : Type := mkAlert {
  alert_id : string;
  alert_type : AlertType;
  alert_timestamp : option Z;
  alert_current : JsNum.t
}.

Record ChartDataPoint : Type := mkChartDataPoint {
  cp_voltage : JsNum.t;
  cp_current : JsNum.t;
  cp_power : JsNum.t;
  cp_timestamp : option Z
}.

(** The component's state (lines 33-43), without [lastUpdate] and
    [emailStatus]. *)
Record Dashboard : Type := mkDashboard {
  d_sensorData : option SensorData;
  d_alerts : list Alert;
  d_isShortCircuit : bool;
  d_isLowCurrentWarning : bool;
  d_chartData : list ChartDataPoint;
  d_apiError : bool;
  d_lastAlertTypeRef : AlertType
}.

Definition dashboard0 : Dashboard :=
  mkDashboard None [] false false [] false normal.

(** What [axios.get] gives back: a failure, or the rows of the reply. *)
Inductive ApiResult : Type :=
| ApiFailed
| ApiData (rows : list SensorData).

(** [l.slice(-n)]. *)
Definition slice_last {A : Type} (n : nat) (l : list A) : list A :=
  drop (length l - n) l.

(** Lines 151-167. *)
Definition new_alert (currentAlertType : AlertType) (newData : SensorData)
    : option Alert :=
  match currentAlertType with
  | short_circuit =>
      Some (mkAlert (sd_id newData) short_circuit (sd_timestamp newData) (sd_current newData))
  | low_current =>
      Some (mkAlert (sd_id newData) low_current (sd_timestamp newData) (sd_current newData))
  | normal => None
  end.

(** One run of [fetchData] (lines 92-182): the new state and the body
    posted to [/send-alert], if any. *)
Definition fetch_cycle (st : Dashboard) (api : ApiResult) : Dashboard * option JsValue :=
  match api with
  | ApiFailed =>
      (mkDashboard (d_sensorData st) (d_alerts st) (d_isShortCircuit st)
                   (d_isLowCurrentWarning st) (d_chartData st) true
                   (d_lastAlertTypeRef st), None)
  | ApiData [] =>
      (mkDashboard (d_sensorData st) (d_alerts st) (d_isShortCircuit st)
                   (d_isLowCurrentWarning st) (d_chartData st) false
                   (d_lastAlertTypeRef st), None)
  | ApiData (latestData :: _) =>
      let newData := latestData in
      let newChartPoint :=
        mkChartDataPoint (sd_voltage newData) (sd_current newData) (sd_power newData)
                         (sd_timestamp newData) in
      let shortCircuitDetected := JsNum.gt (sd_current newData) (JsNum.of_Z 11) in
      let lowCurrentDetected := JsNum.strict_eq (sd_current newData) (JsNum.of_Z 0) in
      let currentAlertType := fst (fetchData (d_lastAlertTypeRef st) newData) in
      let triggered :=
        negb (alert_eqb currentAlertType normal)
        && negb (alert_eqb currentAlertType (d_lastAlertTypeRef st)) in
      let alerts :=
        if triggered then
          match new_alert currentAlertType newData with
          | Some newAlert => newAlert :: take 9 (d_alerts st)
          | None => d_alerts st
          end
        else d_alerts st in
      (mkDashboard (Some newData) alerts shortCircuitDetected lowCurrentDetected
                   (slice_last 20 (d_chartData st ++ [newChartPoint])) false
                   currentAlertType,
       snd (fetchData (d_lastAlertTypeRef st) newData))
  end.

(** The state after a series of polling cycles, for readings with valid
    dates: rendering a reading calls [timestamp.toISOString()] (line 565),
    which throws for an invalid date. *)
Definition fetch_all (st : Dashboard) (apis : list ApiResult) : Dashboard :=
  fold_left (fun s api => fst (fetch_cycle s api)) apis st.

(** The readings a series of polls brings: the first row of every
    non-empty reply. *)
Definition readings_of (apis : list ApiResult) : list SensorData :=
  omap (fun api => match api with
                   | ApiData (latestData :: _) => Some latestData
                   | _ => None
                   end) apis.

Definition chart_point (d : SensorData) : ChartDataPoint :=
  mkChartDataPoint (sd_voltage d) (sd_current d) (sd_power d) (sd_timestamp d).

(** The request reaches the server in state [s] and its answer comes back. *)
Definition deliver (s : AlertType) (mr : MailResult) (body : JsValue) : NetResult :=
  match response (serve s (body, mr)) with
  | inl r => Replied (http_reply r)
  | inr _ => FetchFailed
  end.

(** Every reading has a valid date. *)
Definition valid_dates (ds : list SensorData) : bool :=
  forallb (fun d => match sd_timestamp d with
                    | Some _ => true
                    | None => false
                    end) ds.

(** A dashboard state with its connection-error banner cleared. *)
Definition without_error (st : Dashboard) : Dashboard :=
  mkDashboard (d_sensorData st) (d_alerts st) (d_isShortCircuit st)
              (d_isLowCurrentWarning st) (d_chartData st) false (d_lastAlertTypeRef st).

(** The three colour classes of [getStatusColor] (lines 203-207). *)
Inductive Colour : Type := text_red | text_yellow | text_green.

Definition getStatusColor (current : JsNum.t) : Colour :=
  if JsNum.gt current (JsNum.of_Z 11) then text_red
  else if JsNum.strict_eq current (JsNum.of_Z 0) then text_yellow
  else text_green.

(** The colour that goes with a condition. *)
Definition colour_of (a : AlertType) : Colour :=
  match a with
  | short_circuit => text_red
  | low_current => text_yellow
  | normal => text_green
  end.

(** Line 346: [getStatusColor(sensorData?.current || 0)]. *)
Definition card_colour (sensorData : option SensorData) : Colour :=
  getStatusColor
    match sensorData with
    | Some d => if truthy (JNumber (sd_current d)) then sd_current d else JsNum.of_Z 0
    | None => JsNum.of_Z 0
    end.

(** Lines 350-351: the text under the current, as the condition it names. *)
Definition card_text (sensorData : option SensorData) : AlertType :=
  match sensorData with
  | Some d =>
      if JsNum.gt (sd_current d) (JsNum.of_Z 11) then short_circuit
      else if JsNum.strict_eq (sd_current d) (JsNum.of_Z 0) then low_current
      else normal
  | None => normal
  end.

(** Line 393: [getStatusColor(sensorData?.current ?? -1)]. *)
Definition panel_colour (sensorData : option SensorData) : Colour :=
  getStatusColor
    match sensorData with
    | Some d => sd_current d
    | None => JsNum.of_Z (-1)
    end.

(** Lines 394-397: the level shown, [None] for the two dashes. *)
Definition panel_text (sensorData : option SensorData) : option AlertType :=
  match sensorData with
  | Some d =>
      Some (if JsNum.gt (sd_current d) (JsNum.of_Z 11) then short_circuit
            else if JsNum.strict_eq (sd_current d) (JsNum.of_Z 0) then low_current
            else normal)
  | None => None
  end.

(** Notification of a stream of conditions when [normal] readings are
    skipped: a fault is notified when it differs from the last fault seen. *)
Fixpoint fault_changes (lastFault : AlertType) (conds : list AlertType) : list bool :=
  match conds with
  | [] => []
  | c :: rest =>
      if alert_eqb c normal then false :: fault_changes lastFault rest
      else negb (alert_eqb c lastFault) :: fault_changes c rest
  end.

(* ================================================================== *)
(** * Properties *)
(** ** Comparison of binary64 values *)

Lemma SFcompare_antisym (a b : spec_float) :
  SFcompare b a = option_map CompOpp (SFcompare a b).
Proof.
  destruct a as [sa|sa| |sa ma ea], b as [sb|sb| |sb mb eb]; simpl;
    try reflexivity;
    repeat match goal with s : bool |- _ => destruct s end; try reflexivity.
  - rewrite (Z.compare_antisym eb ea).
    change (Pos.compare_cont Eq ma mb) with (Pos.compare ma mb).
    change (Pos.compare_cont Eq mb ma) with (Pos.compare mb ma).
    rewrite (Pos.compare_antisym mb ma).
    destruct (eb ?= ea)%Z, (mb ?= ma)%positive; reflexivity.
  - rewrite (Z.compare_antisym eb ea).
    change (Pos.compare_cont Eq ma mb) with (Pos.compare ma mb).
    change (Pos.compare_cont Eq mb ma) with (Pos.compare mb ma).
    rewrite (Pos.compare_antisym mb ma).
    destruct (eb ?= ea)%Z, (mb ?= ma)%positive; reflexivity.
Qed.

Lemma le_not_gt (a b : JsNum.t) : JsNum.le a b = true -> JsNum.gt a b = false.
Proof.
  unfold JsNum.le, JsNum.gt, SFleb, SFltb. rewrite (SFcompare_antisym a b).
  destruct (SFcompare a b) as [[]|]; simpl; congruence.
Qed.

Lemma lt_not_eq (a b : JsNum.t) : JsNum.lt a b = true -> JsNum.strict_eq b a = false.
Proof.
  unfold JsNum.lt, JsNum.strict_eq, SFeqb, SFltb. rewrite (SFcompare_antisym a b).
  destruct (SFcompare a b) as [[]|]; simpl; congruence.
Qed.

Lemma eq_zero_not_gt_11 (c : JsNum.t) :
  JsNum.strict_eq c (JsNum.of_Z 0) = true -> JsNum.gt c (JsNum.of_Z 11) = false.
Proof.
  destruct c as [[]|[]| |[] m e]; intros H; vm_compute in H;
    try discriminate H; reflexivity.
Qed.

(** ** Code that leaves the gatekeeper alone *)

Lemma run_quiet (mailer : Mail -> MailResult) (p : Prog Response) :
  quiet p -> forall s,
    final (run mailer p s) = s /\
    Forall (fun e => is_write e = false /\ is_new_state e = false) (trace (run mailer p s)).
Proof.
  induction p as [r|e|k IH|v k IH|l k IH|m k IH]; simpl; intros Hq s.
  - split; [reflexivity|constructor].
  - split; [reflexivity|constructor].
  - apply IH, Hq.
  - contradiction.
  - destruct Hq as [Hl Hk]. destruct (IH Hk s) as [Hf Ht]. split; [exact Hf|].
    constructor; [|exact Ht]. split; [reflexivity|]. destruct l; simpl in *; congruence.
  - destruct (IH _ (Hq (mailer m)) s) as [Hf Ht]. split; [exact Hf|].
    constructor; [|exact Ht]. split; reflexivity.
Qed.

Lemma quiet_bind {A B : Type} (p : Prog A) (f : A -> Prog B) :
  quiet p -> (forall a, quiet (f a)) -> quiet (bind p f).
Proof.
  induction p as [r|e|k IH|v k IH|l k IH|m k IH]; simpl; intros Hp Hf.
  - apply Hf.
  - exact I.
  - intros v. apply IH; [apply Hp | exact Hf].
  - contradiction.
  - destruct Hp as [Hl Hk]. split; [exact Hl | apply IH; assumption].
  - intros r. apply IH; [apply Hp | exact Hf].
Qed.

Lemma quiet_try_catch {A : Type} (p : Prog A) (h : JsError -> Prog A) :
  quiet p -> (forall e, quiet (h e)) -> quiet (try_catch p h).
Proof.
  induction p as [r|e|k IH|v k IH|l k IH|m k IH]; simpl; intros Hp Hh.
  - exact I.
  - apply Hh.
  - intros v. apply IH; [apply Hp | exact Hh].
  - contradiction.
  - destruct Hp as [Hl Hk]. split; [exact Hl | apply IH; assumption].
  - intros r. apply IH; [apply Hp | exact Hh].
Qed.

Lemma quiet_dispatch (sensorData : JsValue) (c : AlertType) : quiet (dispatch sensorData c).
Proof.
  unfold dispatch. apply quiet_try_catch.
  - apply quiet_bind.
    + unfold build_mail.
      repeat (apply quiet_bind;
              [unfold to_fixed, to_primitive;
               first [destruct (to_primitive_throws _) | destruct (get_prop _ _)]; exact I
              | intros ?]).
      exact I.
    + intros m. apply quiet_bind; [|intros; exact I]. simpl. intros []; exact I.
  - intros e. simpl. auto.
Qed.

Lemma send_alert_validated (mailer : Mail -> MailResult) (sensorData : JsValue)
    (current : JsNum.t) (s : AlertType) :
  validated sensorData = Some current ->
  run mailer (send_alert sensorData) s =
    let c := classify current in
    if snd (gatekeeper s c)
    then let o := run mailer (dispatch sensorData c) c in
         mkOutcome (final o) (EvLog (LogNewState s c) :: EvWrite c :: trace o) (response o)
    else mkOutcome c [EvLog (LogUnchanged c); EvWrite c] (inl NoAlert).
Proof.
  unfold validated, send_alert, gatekeeper.
  destruct (truthy sensorData); [|discriminate].
  destruct (get_prop sensorData "current"); try discriminate.
  intros [= ->]. cbn.
  destruct (alert_eqb (classify current) normal || alert_eqb (classify current) s); reflexivity.
Qed.

Lemma serve_validated (s : AlertType) (req : Request) (current : JsNum.t) :
  validated (fst req) = Some current ->
  final (serve s req) = classify current /\
  shouldNotify (serve s req) = snd (gatekeeper s (classify current)).
Proof.
  intros Hv. unfold serve, shouldNotify. rewrite (send_alert_validated _ _ _ _ Hv). cbv zeta.
  destruct (snd (gatekeeper s (classify current))); [|split; reflexivity].
  destruct (run_quiet (fun _ => snd req) _ (quiet_dispatch (fst req) (classify current))
              (classify current)) as [Hf _].
  split; [exact Hf | reflexivity].
Qed.

Lemma run_rejected (mailer : Mail -> MailResult) (sensorData : JsValue) (s : AlertType) :
  validated sensorData = None ->
  run mailer (send_alert sensorData) s = mkOutcome s [] (inl BadRequest).
Proof.
  unfold validated, send_alert.
  destruct (truthy sensorData); [|reflexivity].
  destruct (get_prop sensorData "current"); try reflexivity. discriminate.
Qed.

Lemma serve_rejected (s : AlertType) (req : Request) :
  validated (fst req) = None ->
  serve s req = mkOutcome s [] (inl BadRequest).
Proof. apply run_rejected. Qed.

(** The flags of a run of requests depend on their conditions only. *)
Lemma serve_all_gatekeeper_all (conds : list AlertType) :
  forall (s : AlertType) (reqs : list Request),
    map (fun req => classify <$> validated (fst req)) reqs = map Some conds ->
    map shouldNotify (serve_all s reqs) = gatekeeper_all s conds.
Proof.
  induction conds as [|c conds IH]; intros s [|req reqs] Hc; try discriminate; [reflexivity|].
  simpl in Hc. injection Hc as Hreq Hrest.
  destruct (validated (fst req)) as [current|] eqn:Hv; [|discriminate].
  injection Hreq as <-.
  destruct (serve_validated s req current Hv) as [Hf Hn].
  simpl. rewrite Hn, Hf. f_equal.
  replace (fst (gatekeeper s (classify current))) with (classify current)
    by (unfold gatekeeper; destruct (_ || _); reflexivity).
  apply IH, Hrest.
Qed.

Lemma classify_onto (c : AlertType) : exists current, JsNum.valid current = true /\ classify current = c.
Proof.
  destruct c.
  - exists (JsNum.of_Z 5). split; reflexivity.
  - exists (JsNum.of_Z 12). split; reflexivity.
  - exists (JsNum.of_Z 0). split; reflexivity.
Qed.

Lemma classify_above_11 (c : JsNum.t) :
  JsNum.gt c (JsNum.of_Z 11) = true -> classify c = short_circuit.
Proof. intros H. unfold classify. rewrite H. reflexivity. Qed.

Lemma classify_zero (c : JsNum.t) :
  JsNum.strict_eq c (JsNum.of_Z 0) = true -> classify c = low_current.
Proof. intros H. unfold classify. rewrite (eq_zero_not_gt_11 c H), H. reflexivity. Qed.

(* ------------------------------------------------------------------ *)
(** ** Classification *)

(** C2: [classify] sends every number to exactly one condition: above 11 to
    [short_circuit], equal to 0 to [low_current], anything else to
    [normal]; the client computes the same condition.  11 and 0.0001 are
    [normal], 11.0001 is [short_circuit], 0 is [low_current], and every
    number in (0, 11] is [normal]. *)
Theorem classify_boundaries :
  (forall c, JsNum.gt c (JsNum.of_Z 11) = true -> classify c = short_circuit) /\
  (forall c, JsNum.strict_eq c (JsNum.of_Z 0) = true -> classify c = low_current) /\
  (forall c, JsNum.gt c (JsNum.of_Z 11) = false ->
             JsNum.strict_eq c (JsNum.of_Z 0) = false -> classify c = normal) /\
  (forall c, client_classify c = classify c) /\
  classify (JsNum.of_Z 11) = normal /\
  classify (JsNum.of_ratio 110001 10000) = short_circuit /\
  classify (JsNum.of_Z 0) = low_current /\
  classify (JsNum.of_ratio 1 10000) = normal /\
  (forall c, JsNum.lt (JsNum.of_Z 0) c = true -> JsNum.le c (JsNum.of_Z 11) = true ->
             classify c = normal).
Proof.
  repeat split; try reflexivity.
  - exact classify_above_11.
  - exact classify_zero.
  - intros c H11 H0. unfold classify. rewrite H11, H0. reflexivity.
  - intros c Hpos Hle. unfold classify.
    rewrite (le_not_gt _ _ Hle), (lt_not_eq _ _ Hpos). reflexivity.
Qed.

Lemma classify_boundaries_witness :
  classify (JsNum.of_Z 12) = short_circuit /\
  classify (S754_zero true) = low_current /\
  classify (JsNum.of_ratio 11 2) = normal.
Proof.
  destruct classify_boundaries as (Hsc & Hlow & _ & _ & _ & _ & _ & _ & Hband).
  split; [apply Hsc; reflexivity|].
  split; [apply Hlow; reflexivity|].
  apply Hband; reflexivity.
Defined.

(* ------------------------------------------------------------------ *)
(** ** The gatekeeper, one request at a time *)

Lemma gatekeeper_all_edges (conds : list AlertType) :
  forall s, gatekeeper_all s conds = edges_along s conds.
Proof.
  induction conds as [|c conds IH]; intros s; [reflexivity|].
  cbn [gatekeeper_all edges_along]. f_equal.
  - destruct s, c; reflexivity.
  - rewrite <- IH. f_equal. unfold gatekeeper. destruct (_ || _); reflexivity.
Qed.

(** C1: [lastAlertType] starts as [normal]; a validated request reaches
    step 3 exactly when (stored state, condition of the reading) is one of
    normal->short_circuit, normal->low_current, short_circuit->low_current,
    low_current->short_circuit, and it leaves the condition of its reading
    as the stored state; so along any run of validated requests from the
    initial state the flags are the notifying edges between consecutive
    conditions, self-loops and returns to normal being silent; every
    condition occurs; and requests with conditions normal, short_circuit,
    low_current give false, true, true. *)
Theorem notify_edges :
  initial = normal /\
  (forall c, exists current, JsNum.valid current = true /\ classify current = c) /\
  (forall (s : AlertType) (req : Request) (current : JsNum.t),
      validated (fst req) = Some current ->
      (shouldNotify (serve s req) = true <->
         (s = normal /\ classify current = short_circuit) \/
         (s = normal /\ classify current = low_current) \/
         (s = short_circuit /\ classify current = low_current) \/
         (s = low_current /\ classify current = short_circuit))) /\
  (forall reqs : list Request,
      map (fun req => classify <$> validated (fst req)) reqs
        = [Some normal; Some short_circuit; Some low_current] ->
      map shouldNotify (serve_all initial reqs) = [false; true; true]) /\
  (forall (s : AlertType) (req : Request) (current : JsNum.t),
      validated (fst req) = Some current ->
      final (serve s req) = classify current) /\
  (forall (reqs : list Request) (conds : list AlertType),
      map (fun req => classify <$> validated (fst req)) reqs = map Some conds ->
      map shouldNotify (serve_all initial reqs) = edges_along initial conds).
Proof.
  split; [reflexivity|]. split; [exact classify_onto|]. split; [|split; [|split]].
  - intros s req current Hv.
    destruct (serve_validated s req current Hv) as [_ ->].
    destruct s, (classify current); cbn; split; intros H;
      try discriminate; try reflexivity; intuition congruence.
  - intros reqs Hc.
    apply (serve_all_gatekeeper_all [normal; short_circuit; low_current] initial reqs Hc).
  - intros s req current Hv. apply (serve_validated s req current Hv).
  - intros reqs conds Hc. rewrite <- gatekeeper_all_edges.
    apply (serve_all_gatekeeper_all conds initial reqs Hc).
Qed.

Lemma notify_edges_witness :
  shouldNotify (serve short_circuit (amps 0, Delivered)) = true /\
  map shouldNotify (serve_all initial [(amps 3, Delivered); (amps 15, Rejected "smtp"); (amps 0, Delivered)])
    = [false; true; true] /\
  final (serve low_current (amps 14, Delivered)) = short_circuit /\
  map shouldNotify
      (serve_all initial [(amps 12, Delivered); (amps 13, Delivered); (amps 5, Delivered);
                          (amps 14, Rejected "smtp"); (amps 0, Delivered); (amps 0, Delivered)])
    = [true; false; false; true; true; false].
Proof.
  destruct notify_edges as (_ & _ & Hedge & Hseq & Hfinal & Hwalk).
  split; [|split; [|split]].
  - apply (Hedge short_circuit (amps 0, Delivered) (JsNum.of_Z 0)); [reflexivity|].
    right; right; left. split; reflexivity.
  - apply Hseq. reflexivity.
  - apply (Hfinal low_current (amps 14, Delivered) (JsNum.of_Z 14)). reflexivity.
  - apply (Hwalk _ [short_circuit; short_circuit; normal; short_circuit; low_current;
                    low_current]).
    reflexivity.
Defined.

(** C3: from the initial state, requests whose conditions are normal,
    short_circuit, short_circuit, short_circuit, normal, short_circuit reach
    step 3 at the second and the last only; requests reading 5, 5, 0, 0, 12,
    5, 12 amperes reach it at positions 3, 5 and 7 only, and with well-formed
    bodies and a working mail service those three are answered with a
    low_current, a short_circuit and a short_circuit alert. *)
Theorem notify_sequences :
  (forall reqs : list Request,
      map (fun req => classify <$> validated (fst req)) reqs
        = map Some [normal; short_circuit; short_circuit; short_circuit; normal; short_circuit] ->
      map shouldNotify (serve_all initial reqs) = [false; true; false; false; false; true]) /\
  (forall reqs : list Request,
      map (fun req => validated (fst req)) reqs
        = map (fun a => Some (JsNum.of_Z a)) [5; 5; 0; 0; 12; 5; 12]%Z ->
      map shouldNotify (serve_all initial reqs)
        = [false; false; true; false; true; false; true]) /\
  map (fun o => (dispatched o, response o))
      (serve_all initial (map (fun a => (amps a, Delivered)) [5; 5; 0; 0; 12; 5; 12]%Z))
    = [(false, inl NoAlert); (false, inl NoAlert); (true, inl (AlertSent low_current));
       (false, inl NoAlert); (true, inl (AlertSent short_circuit));
       (false, inl NoAlert); (true, inl (AlertSent short_circuit))].
Proof.
  split; [|split].
  - intros reqs Hc. apply (serve_all_gatekeeper_all _ initial reqs Hc).
  - intros reqs Hc.
    apply (serve_all_gatekeeper_all
             [normal; normal; low_current; low_current; short_circuit; normal; short_circuit]
             initial reqs).
    rewrite <- (map_map (fun req => validated (fst req)) (fmap classify)), Hc. reflexivity.
  - vm_compute. reflexivity.
Qed.

Lemma notify_sequences_witness :
  map shouldNotify
      (serve_all initial (map (fun a => (amps a, Rejected "timeout")) [5; 5; 0; 0; 12; 5; 12]%Z))
    = [false; false; true; false; true; false; true].
Proof.
  destruct notify_sequences as (_ & Hamps & _). apply Hamps. reflexivity.
Defined.

Lemma final_all_snoc (s : AlertType) (reqs : list Request) (req : Request) :
  final_all s (reqs ++ [req]) = final (serve (final_all s reqs) req).
Proof. unfold final_all. rewrite fold_left_app. reflexivity. Qed.

Lemma advance_quiet (p : Prog Response) :
  quiet p -> forall s,
    turn_last (advance p s) = s /\
    Forall (fun e => is_write e = false /\ is_new_state e = false) (turn_events (advance p s)) /\
    task_quiet (turn_task (advance p s)).
Proof.
  induction p as [r|e|k IH|v k IH|l k IH|m k IH]; simpl; intros Hq s.
  - repeat split. constructor.
  - repeat split. constructor.
  - apply IH, Hq.
  - contradiction.
  - destruct Hq as [Hl Hk]. destruct (IH Hk s) as (Hs & Hevs & Ht).
    repeat split; [exact Hs | | exact Ht].
    constructor; [split; [reflexivity | exact Hl] | exact Hevs].
  - repeat split; [|exact Hq].
    constructor; [split; reflexivity | constructor].
Qed.

Lemma advance_send_alert (sensorData : JsValue) (current : JsNum.t) (s : AlertType) :
  validated sensorData = Some current ->
  advance (send_alert sensorData) s =
    let c := classify current in
    if snd (gatekeeper s c)
    then let t := advance (dispatch sensorData c) c in
         mkTurn (turn_last t) (EvLog (LogNewState s c) :: EvWrite c :: turn_events t) (turn_task t)
    else mkTurn c [EvLog (LogUnchanged c); EvWrite c] (Done NoAlert).
Proof.
  unfold validated, send_alert, gatekeeper.
  destruct (truthy sensorData); [|discriminate].
  destruct (get_prop sensorData "current"); try discriminate.
  intros [= ->]. cbn.
  destruct (alert_eqb (classify current) normal || alert_eqb (classify current) s); reflexivity.
Qed.

(** C7: [lastAlertType] starts as [normal]; after a validated request it is
    the condition of that request's reading, whatever the earlier requests
    were and whatever happens to the email: this holds as soon as the
    handler's first turn ends, and the turn that follows the mail result
    leaves it alone. *)
Theorem last_is_condition_of_last_processed :
  initial = normal /\
  (forall (s : AlertType) (req : Request) (current : JsNum.t),
      validated (fst req) = Some current ->
      final (serve s req) = classify current) /\
  (forall (s : AlertType) (reqs : list Request) (req : Request) (current : JsNum.t),
      validated (fst req) = Some current ->
      final_all s (reqs ++ [req]) = classify current) /\
  (forall (s : AlertType) (sensorData : JsValue) (current : JsNum.t),
      validated sensorData = Some current ->
      turn_last (advance (send_alert sensorData) s) = classify current /\
      match turn_task (advance (send_alert sensorData) s) with
      | Awaiting m k => forall r s', turn_last (advance (k r) s') = s'
      | Ready _ => False
      | _ => True
      end).
Proof.
  split; [reflexivity|]. split; [|split].
  - intros s req current Hv. apply (serve_validated s req current Hv).
  - intros s reqs req current Hv. rewrite final_all_snoc.
    apply (serve_validated _ req current Hv).
  - intros s sensorData current Hv. rewrite (advance_send_alert _ _ _ Hv). cbv zeta.
    destruct (snd (gatekeeper s (classify current))); [|split; [reflexivity | exact I]].
    destruct (advance_quiet _ (quiet_dispatch sensorData (classify current)) (classify current))
      as (Hs & _ & Ht).
    split; [exact Hs|]. simpl.
    destruct (turn_task _); simpl in Ht; try exact I; try contradiction.
    intros r s'. apply (advance_quiet _ (Ht r) s').
Qed.

Lemma last_is_condition_of_last_processed_witness :
  final_all initial [(amps 12, Delivered); (JNull, Delivered); (amps 0, Rejected "auth")]
    = low_current.
Proof.
  destruct last_is_condition_of_last_processed as (_ & _ & Hall & _).
  apply (Hall initial [(amps 12, Delivered); (JNull, Delivered)] (amps 0, Rejected "auth")
              (JsNum.of_Z 0)).
  reflexivity.
Defined.

Lemma run_dispatch (mailer : Mail -> MailResult) (sensorData : JsValue) (c s : AlertType) :
  (exists key,
      build_mail sensorData c = Throw (TypeError key) /\
      run mailer (dispatch sensorData c) s
        = mkOutcome s [EvLog (LogError (TypeError key))] (inl (ServerError (TypeError key)))) \/
  (exists m,
      build_mail sensorData c = Ret m /\ mail_kind m = c /\
      run mailer (dispatch sensorData c) s
        = match mailer m with
          | Delivered => mkOutcome s [EvSendMail m] (inl (AlertSent c))
          | Rejected d =>
              mkOutcome s [EvSendMail m; EvLog (LogError (DeliveryError d))]
                        (inl (ServerError (DeliveryError d)))
          end).
Proof.
  unfold dispatch, build_mail, to_fixed, to_primitive.
  destruct (to_primitive_throws (get_prop sensorData "timestamp"));
    [left; eexists; split; reflexivity|].
  destruct (get_prop sensorData "current");
    try (left; eexists; split; reflexivity).
  destruct (get_prop sensorData "voltage");
    try (left; eexists; split; reflexivity).
  destruct (get_prop sensorData "power");
    try (left; eexists; split; reflexivity).
  destruct (to_primitive_throws (get_prop sensorData "_id"));
    [left; eexists; split; reflexivity|].
  right. eexists. split; [reflexivity|]. split; [reflexivity|].
  cbn. destruct (mailer _); reflexivity.
Qed.

(** C8 as stated fails: a body whose [current] is Infinity is a number for
    [typeof], so it is classified and it changes [lastAlertType]. *)
Lemma non_finite_current_not_rejected :
  ~ (forall (s : AlertType) (req : Request),
        current_is_finite (fst req) = false ->
        response (serve s req) = inl BadRequest /\ final (serve s req) = s).
Proof.
  intros H. destruct (H normal (overflow_body, Delivered) eq_refl) as [Hr _].
  vm_compute in Hr. discriminate.
Qed.

(** C8, amended: a request whose body is falsy or whose [current] is not of
    type number is answered 400 with no effect at all: nothing is logged,
    written or sent, and [lastAlertType] is unchanged.  A request is
    answered 400 in no other case. *)
Theorem invalid_request_rejected (s : AlertType) (req : Request) :
  (truthy (fst req) = false \/ is_number (get_prop (fst req) "current") = false ->
     serve s req = mkOutcome s [] (inl BadRequest)) /\
  (response (serve s req) = inl BadRequest ->
     truthy (fst req) = false \/ is_number (get_prop (fst req) "current") = false).
Proof.
  split.
  - intros H. apply serve_rejected. unfold validated.
    destruct H as [-> | H]; [reflexivity|].
    destruct (truthy (fst req)); [|reflexivity].
    destruct (get_prop (fst req) "current"); try reflexivity. discriminate.
  - intros Hr. destruct (truthy (fst req)) eqn:Ht; [|left; reflexivity]. right.
    destruct (get_prop (fst req) "current") eqn:Hc; try reflexivity.
    exfalso.
    assert (Hv : validated (fst req) = Some n) by (unfold validated; rewrite Ht, Hc; reflexivity).
    unfold serve in Hr. rewrite (send_alert_validated _ _ _ _ Hv) in Hr. cbv zeta in Hr.
    destruct (snd (gatekeeper s (classify n))); [|discriminate].
    simpl in Hr.
    destruct (run_dispatch (fun _ => snd req) (fst req) (classify n) (classify n))
      as [(key & _ & E) | (m & _ & _ & E)]; rewrite E in Hr.
    + discriminate.
    + destruct (snd req); discriminate.
Qed.

Lemma invalid_request_rejected_witness :
  serve short_circuit (JObject [("current", JString "12")], Delivered)
    = mkOutcome short_circuit [] (inl BadRequest).
Proof.
  apply (invalid_request_rejected short_circuit (JObject [("current", JString "12")], Delivered)).
  right. reflexivity.
Defined.


(* ------------------------------------------------------------------ *)
(** ** Dispatch *)

Lemma store_after_app (s : AlertType) (pre post : list Event) :
  store_after s (pre ++ post) = store_after (store_after s pre) post.
Proof. unfold store_after. apply fold_left_app. Qed.

(** C4: whenever the handler calls [transporter.sendMail], the assignment
    of the new condition to [lastAlertType] is already in the trace: at the
    call the variable holds the condition the email is about, which is the
    condition of the request's reading and differs from the value the
    variable had when the handler started.  The call is in the handler's
    first turn, so no other request runs between the two. *)
Theorem write_precedes_dispatch (mailer : Mail -> MailResult) (s : AlertType)
    (sensorData : JsValue) (pre post : list Event) (m : Mail) :
  trace (run mailer (send_alert sensorData) s) = pre ++ EvSendMail m :: post ->
  In (EvWrite (mail_kind m)) pre /\
  store_after s pre = mail_kind m /\
  mail_kind m <> s /\
  (exists current, validated sensorData = Some current /\ mail_kind m = classify current) /\
  turn_events (advance (send_alert sensorData) s) = pre ++ [EvSendMail m].
Proof.
  intros Ht.
  destruct (validated sensorData) as [current|] eqn:Hv.
  2:{ rewrite (run_rejected mailer sensorData s Hv) in Ht. destruct pre; discriminate. }
  rewrite (send_alert_validated _ _ _ _ Hv) in Ht. cbv zeta in Ht.
  rewrite (advance_send_alert _ _ _ Hv). cbv zeta.
  destruct (snd (gatekeeper s (classify current))) eqn:Hg.
  2:{ destruct pre as [|e1 [|e2 [|e3 pre]]]; discriminate. }
  assert (Hne : classify current <> s).
  { destruct (classify current), s; vm_compute in Hg; congruence. }
  simpl in Ht.
  destruct (run_dispatch mailer sensorData (classify current) (classify current))
    as [(key & Hb & E) | (m' & Hb & Hk & E)]; rewrite E in Ht.
  - destruct pre as [|e1 [|e2 [|e3 [|e4 pre]]]]; discriminate.
  - assert (Hpre : pre = [EvLog (LogNewState s (classify current)); EvWrite (classify current)]
                   /\ m = m').
    { destruct (mailer m'); simpl in Ht;
        destruct pre as [|e1 [|e2 [|e3 [|e4 [|e5 pre]]]]]; simpl in Ht; try discriminate;
        injection Ht; intros; subst; try discriminate; split; reflexivity. }
    destruct Hpre as [-> ->]. rewrite Hk.
    split; [right; left; reflexivity|].
    split; [reflexivity|]. split; [exact Hne|]. split; [eauto|].
    simpl. unfold dispatch. unfold mbind, Prog_bind. rewrite Hb. reflexivity.
Qed.

Lemma write_precedes_dispatch_witness :
  let m := mkMail short_circuit (JsNum.of_Z 12) (JsNum.of_Z 230) (JsNum.of_Z 2760) in
  let pre := [EvLog (LogNewState normal short_circuit); EvWrite short_circuit] in
  In (EvWrite (mail_kind m)) pre /\
  store_after normal pre = mail_kind m /\
  mail_kind m <> normal /\
  (exists current, validated (amps 12) = Some current /\ mail_kind m = classify current) /\
  turn_events (advance (send_alert (amps 12)) normal) = pre ++ [EvSendMail m].
Proof.
  apply (write_precedes_dispatch (fun _ => Rejected "smtp") normal (amps 12)
           [EvLog (LogNewState normal short_circuit); EvWrite short_circuit]
           [EvLog (LogError (DeliveryError "smtp"))]
           (mkMail short_circuit (JsNum.of_Z 12) (JsNum.of_Z 230) (JsNum.of_Z 2760))).
  reflexivity.
Defined.

(** C6: when [sendMail] was called for a request and rejects, the request
    is answered 500 with the delivery error, [lastAlertType] keeps the new
    condition (it is not set back to its previous value), a following
    request with the same condition is not notified, and a following
    request with another non-normal condition is.  [sendMail] is called
    for every validated request that passes the gatekeeper, has numbers for
    voltage and power, and whose [timestamp] and [_id] convert to
    primitives. *)
Theorem delivery_failure_keeps_state (s : AlertType) (req : Request) :
  (forall details,
      snd req = Rejected details ->
      dispatched (serve s req) = true ->
      let o := serve s req in
      exists current,
        validated (fst req) = Some current /\
        shouldNotify o = true /\
        response o = inl (ServerError (DeliveryError details)) /\
        final o = classify current /\
        final o <> s /\
        (forall (next : Request) (current' : JsNum.t),
            validated (fst next) = Some current' ->
            (classify current' = classify current ->
               response (serve (final o) next) = inl NoAlert) /\
            (classify current' <> normal -> classify current' <> classify current ->
               shouldNotify (serve (final o) next) = true))) /\
  (forall current voltage power,
      validated (fst req) = Some current ->
      get_prop (fst req) "voltage" = JNumber voltage ->
      get_prop (fst req) "power" = JNumber power ->
      to_primitive_throws (get_prop (fst req) "timestamp") = false ->
      to_primitive_throws (get_prop (fst req) "_id") = false ->
      snd (gatekeeper s (classify current)) = true ->
      dispatched (serve s req) = true).
Proof.
  split.
  - intros details Hmr Hd o.
    destruct (validated (fst req)) as [current|] eqn:Hv.
    2:{ rewrite (serve_rejected s req Hv) in Hd. discriminate Hd. }
    exists current. split; [reflexivity|].
    destruct (serve_validated s req current Hv) as [Hf Hn]. fold o in Hf, Hn.
    assert (Hg : snd (gatekeeper s (classify current)) = true).
    { unfold serve in Hd. rewrite (send_alert_validated _ _ _ _ Hv) in Hd. cbv zeta in Hd.
      destruct (snd (gatekeeper s (classify current))); [reflexivity | discriminate Hd]. }
    split; [rewrite Hn; exact Hg|].
    split.
    { unfold o, serve in Hd |- *. rewrite (send_alert_validated _ _ _ _ Hv) in Hd |- *.
      cbv zeta in Hd |- *. rewrite Hg in Hd |- *. unfold dispatched in Hd.
      cbn [trace response existsb is_send_mail orb] in Hd |- *.
      destruct (run_dispatch (fun _ => snd req) (fst req) (classify current) (classify current))
        as [(key & _ & E) | (m' & _ & _ & E)]; rewrite E in Hd |- *.
      - discriminate Hd.
      - rewrite Hmr. reflexivity. }
    split; [exact Hf|].
    split; [rewrite Hf; destruct (classify current), s; vm_compute in Hg; congruence|].
    intros next current' Hnext. rewrite Hf. split.
    + intros Hsame. unfold serve. rewrite (send_alert_validated _ _ _ _ Hnext). cbv zeta.
      rewrite Hsame. destruct (classify current); reflexivity.
    + intros Hnn Hdiff.
      destruct (serve_validated (classify current) next current' Hnext) as [_ ->].
      destruct (classify current'), (classify current); try reflexivity; congruence.
  - intros current voltage power Hv Hvolt Hpow Hts Hid Hg.
    assert (Hcur : get_prop (fst req) "current" = JNumber current).
    { revert Hv. unfold validated. destruct (truthy (fst req)); [|discriminate].
      destruct (get_prop (fst req) "current"); try discriminate. congruence. }
    unfold serve, dispatched. rewrite (send_alert_validated _ _ _ _ Hv). cbv zeta.
    rewrite Hg. unfold dispatch, build_mail, to_fixed, to_primitive.
    rewrite Hts, Hcur, Hvolt, Hpow, Hid. reflexivity.
Qed.

Lemma delivery_failure_keeps_state_witness :
  let o := serve normal (amps 12, Rejected "Invalid login") in
  response o = inl (ServerError (DeliveryError "Invalid login")) /\
  final o = short_circuit /\
  response (serve (final o) (amps 13, Delivered)) = inl NoAlert /\
  shouldNotify (serve (final o) (amps 0, Delivered)) = true.
Proof.
  destruct (delivery_failure_keeps_state normal (amps 12, Rejected "Invalid login"))
    as [Hfail Hsent].
  assert (Hd : dispatched (serve normal (amps 12, Rejected "Invalid login")) = true).
  { apply (Hsent (JsNum.of_Z 12) (JsNum.of_Z 230) (JsNum.of_Z 2760)); reflexivity. }
  destruct (Hfail "Invalid login" eq_refl Hd) as (current & Hv & _ & Hr & Hf & _ & Hnext).
  injection Hv as <-.
  split; [exact Hr|]. split; [exact Hf|]. split.
  - apply (Hnext (amps 13, Delivered) (JsNum.of_Z 13)); reflexivity.
  - apply (Hnext (amps 0, Delivered) (JsNum.of_Z 0)); [reflexivity | discriminate | discriminate].
Defined.

(* ------------------------------------------------------------------ *)
(** ** The two revisions of the handler *)

Lemma superseded_within_limits (mailer : Mail -> MailResult) (sensorData : JsValue)
    (current : JsNum.t) (s : AlertType) :
  validated sensorData = Some current ->
  JsNum.le current (JsNum.of_Z 12) = true ->
  run mailer (send_alert_superseded sensorData) s = mkOutcome s [] (inl WithinLimits).
Proof.
  unfold validated, send_alert_superseded.
  destruct (truthy sensorData); [|discriminate].
  destruct (get_prop sensorData "current"); try discriminate.
  intros [= ->] Hle. rewrite Hle. reflexivity.
Qed.

Lemma eq_zero_le_12 (c : JsNum.t) :
  JsNum.strict_eq c (JsNum.of_Z 0) = true -> JsNum.le c (JsNum.of_Z 12) = true.
Proof.
  destruct c as [[]|[]| |[] m e]; intros H; vm_compute in H;
    try discriminate H; reflexivity.
Qed.

(** C9: the two revisions of the handler differ.  For a well-formed reading
    whose current is above 11 and at most 12, arriving when [lastAlertType]
    is not [short_circuit], and for one whose current is 0, arriving when
    it is not [low_current], the edge-triggered revision calls [sendMail]
    and the earlier revision answers "within normal limits" without
    calling it. *)
Theorem revisions_differ (mailer : Mail -> MailResult) (s : AlertType)
    (current voltage power : JsNum.t) :
  (JsNum.gt current (JsNum.of_Z 11) = true /\ JsNum.le current (JsNum.of_Z 12) = true
     /\ s <> short_circuit) \/
  (JsNum.strict_eq current (JsNum.of_Z 0) = true /\ s <> low_current) ->
  let sensorData := reading current voltage power in
  dispatched (run mailer (send_alert sensorData) s) = true /\
  run mailer (send_alert_superseded sensorData) s = mkOutcome s [] (inl WithinLimits) /\
  dispatched (run mailer (send_alert_superseded sensorData) s) = false.
Proof.
  intros H sensorData.
  assert (Hv : validated sensorData = Some current) by reflexivity.
  assert (Hle : JsNum.le current (JsNum.of_Z 12) = true).
  { destruct H as [(_ & Hle & _) | (H0 & _)]; [exact Hle | apply eq_zero_le_12, H0]. }
  assert (Hg : snd (gatekeeper s (classify current)) = true).
  { destruct H as [(Hgt & _ & Hs) | (H0 & Hs)].
    - rewrite (classify_above_11 _ Hgt). destruct s; try reflexivity; congruence.
    - rewrite (classify_zero _ H0). destruct s; try reflexivity; congruence. }
  rewrite (superseded_within_limits mailer sensorData current s Hv Hle).
  split; [|split; reflexivity].
  rewrite (send_alert_validated _ _ _ _ Hv). cbv zeta. rewrite Hg.
  unfold dispatched. cbn. reflexivity.
Qed.

Lemma revisions_differ_witness :
  let sensorData := reading (JsNum.of_ratio 23 2) (JsNum.of_Z 230) (JsNum.of_Z 2645) in
  dispatched (run (fun _ => Delivered) (send_alert sensorData) initial) = true /\
  run (fun _ => Delivered) (send_alert_superseded sensorData) initial
    = mkOutcome initial [] (inl WithinLimits) /\
  dispatched (run (fun _ => Delivered) (send_alert_superseded sensorData) initial) = false.
Proof.
  apply (revisions_differ (fun _ => Delivered) initial
           (JsNum.of_ratio 23 2) (JsNum.of_Z 230) (JsNum.of_Z 2645)).
  left. split; [reflexivity|]. split; [reflexivity | discriminate].
Defined.

(* ------------------------------------------------------------------ *)
(** ** Client and server together *)

Lemma client_classify_classify (c : JsNum.t) : client_classify c = classify c.
Proof. reflexivity. Qed.




Lemma poll_all_cons (f : Flow) (c : SensorData * MailResult)
    (rest : list (SensorData * MailResult)) :
  poll_all f (c :: rest)
  = (fst (poll_all (fst (poll f c)) rest), snd (poll f c) :: snd (poll_all (fst (poll f c)) rest)).
Proof.
  simpl. destruct (poll f c) as [f' sent]. simpl.
  destruct (poll_all f' rest). reflexivity.
Qed.




(* ------------------------------------------------------------------ *)
(** ** Requests in flight together *)

Lemma notified_in_app (j i : nat) (tr : list (nat * Event)) (evs : list Event) :
  notified_in j (tr ++ map (pair i) evs)
  = notified_in j tr || (Nat.eqb i j && existsb is_new_state evs).
Proof.
  unfold notified_in. rewrite existsb_app. f_equal.
  induction evs as [|e evs IH]; simpl.
  - rewrite andb_false_r. reflexivity.
  - rewrite IH. destruct (Nat.eqb i j); reflexivity.
Qed.

Lemma no_new_state (evs : list Event) :
  Forall (fun e => is_write e = false /\ is_new_state e = false) evs ->
  existsb is_new_state evs = false.
Proof.
  induction 1 as [|e evs [_ He] _ IH]; simpl; [reflexivity|]. rewrite He, IH. reflexivity.
Qed.

Section SameFault.

Variable c : AlertType.
Variable bodies : list JsValue.
Hypothesis fault : c <> normal.
Hypothesis same :
  Forall (fun b => exists cur, validated b = Some cur /\ classify cur = c) bodies.

Lemma body_condition (i : nat) (b : JsValue) :
  bodies !! i = Some b -> exists cur, validated b = Some cur /\ classify cur = c.
Proof. intros Hi. exact (proj1 (Forall_lookup _ _) same i b Hi). Qed.

(** The first request to run passes the gatekeeper. *)
Lemma first_turn (i : nat) (b : JsValue) :
  bodies !! i = Some b ->
  won c bodies i (turn i (send_alert b) (arrive normal bodies)).
Proof.
  intros Hi. destruct (body_condition i b Hi) as (cur & Hv & Hcur).
  unfold turn. cbn [pool_last pool_tasks pool_trace arrive].
  rewrite (advance_send_alert _ _ _ Hv). cbv zeta. rewrite Hcur.
  assert (Hg : snd (gatekeeper normal c) = true) by (destruct c; [congruence | reflexivity..]).
  rewrite Hg. cbn [turn_last turn_events turn_task].
  destruct (advance_quiet _ (quiet_dispatch b c) c) as (Hs & Hevs & Ht).
  assert (Hlen : i < length ((fun b => Ready (send_alert b)) <$> bodies)).
  { rewrite length_fmap. apply (lookup_lt_Some _ _ _ Hi). }
  repeat split.
  - exact Hs.
  - cbn [pool_tasks]. rewrite length_insert, length_fmap. reflexivity.
  - eexists. split; [apply list_lookup_insert_eq, Hlen | exact Ht].
  - unfold notified. cbn. rewrite Nat.eqb_refl. reflexivity.
  - unfold notified. cbn [pool_trace]. rewrite (notified_in_app j i []).
    apply Nat.eqb_neq in H. rewrite Nat.eqb_sym in H. rewrite H. reflexivity.
  - intros t. cbn [pool_tasks]. rewrite list_lookup_insert_ne by congruence.
    rewrite list_lookup_fmap. destruct (bodies !! j) as [b'|]; [|discriminate].
    intros [= <-]. left. exists b'. split; reflexivity.
Qed.

Lemma pool_inv_step (ch : Choice) (P P' : Pool) :
  pool_inv c bodies P -> pool_step ch P = Some P' -> pool_inv c bodies P'.
Proof.
  intros [-> | (n & Hlast & Hlen & (tn & Hn & Hq) & Hnot & Hothers)] Hstep; right.
  - (* nothing has run yet *)
    destruct ch as [i | i r]; cbn in Hstep; rewrite list_lookup_fmap in Hstep;
      destruct (bodies !! i) as [b|] eqn:Hi; try discriminate Hstep;
      cbn in Hstep; try discriminate Hstep.
    injection Hstep as <-. exists i. apply first_turn, Hi.
  - (* request [n] has been notified *)
    exists n. destruct ch as [i | i r]; cbn in Hstep;
      destruct (pool_tasks P !! i) as [[p | m k | r' | e]|] eqn:Hi; try discriminate Hstep;
      injection Hstep as <-.
    + (* a waiting request gets its first turn *)
      assert (Hin : i <> n) by (intros ->; rewrite Hn in Hi; injection Hi as ->; exact Hq).
      destruct (Hothers i Hin) as [_ Hti].
      destruct (Hti _ Hi) as [(b & Hb & Hp) | Hp]; [|discriminate Hp].
      injection Hp as ->.
      destruct (body_condition i b Hb) as (cur & Hv & Hcur).
      unfold turn. rewrite (advance_send_alert _ _ _ Hv). cbv zeta. rewrite Hcur, Hlast.
      assert (Hg : snd (gatekeeper c c) = false) by (destruct c; reflexivity).
      rewrite Hg. cbn [turn_last turn_events turn_task].
      repeat split.
      * cbn [pool_tasks]. rewrite length_insert. exact Hlen.
      * exists tn. split; [|exact Hq]. cbn [pool_tasks].
        rewrite list_lookup_insert_ne by exact Hin. exact Hn.
      * unfold notified in *. cbn [pool_trace]. rewrite notified_in_app, Hnot. reflexivity.
      * unfold notified. cbn [pool_trace]. rewrite notified_in_app.
        destruct (Hothers j H) as [Hj _]. unfold notified in Hj. rewrite Hj.
        cbn. rewrite andb_false_r. reflexivity.
      * intros t. cbn [pool_tasks]. destruct (decide (i = j)) as [-> | Hij].
        -- rewrite list_lookup_insert_eq by (apply (lookup_lt_Some _ _ _ Hi)).
           intros [= <-]. right. reflexivity.
        -- rewrite list_lookup_insert_ne by exact Hij. apply (Hothers j H).
    + (* a mail promise settles *)
      assert (Hin : i = n).
      { destruct (decide (i = n)) as [E | Hne]; [exact E | exfalso].
        destruct (Hothers i Hne) as [_ Hti].
        destruct (Hti _ Hi) as [(b & _ & Hp) | Hp]; discriminate Hp. }
      subst i. rewrite Hn in Hi. injection Hi as ->. cbn in Hq.
      unfold turn. rewrite Hlast.
      destruct (advance_quiet _ (Hq r) c) as (Hs & Hevs & Ht).
      repeat split.
      * exact Hs.
      * cbn [pool_tasks]. rewrite length_insert. exact Hlen.
      * eexists. split; [|exact Ht]. cbn [pool_tasks].
        apply list_lookup_insert_eq, (lookup_lt_Some _ _ _ Hn).
      * unfold notified in *. cbn [pool_trace]. rewrite notified_in_app, Hnot. reflexivity.
      * unfold notified. cbn [pool_trace]. rewrite notified_in_app.
        destruct (Hothers j H) as [Hj _]. unfold notified in Hj.
        rewrite Hj, (no_new_state _ Hevs), andb_false_r. reflexivity.
      * intros t. cbn [pool_tasks]. rewrite list_lookup_insert_ne by congruence.
        apply (Hothers j H).
Qed.

Lemma pool_inv_run (sched : list Choice) :
  forall P P', pool_inv c bodies P -> run_schedule sched P = Some P' -> pool_inv c bodies P'.
Proof.
  induction sched as [|ch sched IH]; intros P P' HP Hrun; simpl in Hrun.
  - injection Hrun as <-. exact HP.
  - destruct (pool_step ch P) as [P1|] eqn:Hstep; [|discriminate].
    apply (IH P1 P' (pool_inv_step ch P P1 HP Hstep) Hrun).
Qed.

End SameFault.

(** C5: two requests that arrive together while [lastAlertType] is [normal]
    and read the same fault: under every interleaving of their turns, once
    both have had their first turn, exactly one of them was notified, the
    other was answered "no alert", and [lastAlertType] is the fault.  The
    handler has no [await] between its test and its assignment, so each
    first turn performs both. *)
Theorem concurrent_same_fault_notifies_once (b0 b1 : JsValue) (cur0 cur1 : JsNum.t)
    (sched : list Choice) (P : Pool) :
  validated b0 = Some cur0 ->
  validated b1 = Some cur1 ->
  classify cur0 = classify cur1 ->
  classify cur0 <> normal ->
  run_schedule sched (arrive normal [b0; b1]) = Some P ->
  Forall (fun t => started t = true) (pool_tasks P) ->
  pool_last P = classify cur0 /\
  ((notified 0 P = true /\ notified 1 P = false /\ pool_tasks P !! 1 = Some (Done NoAlert)) \/
   (notified 1 P = true /\ notified 0 P = false /\ pool_tasks P !! 0 = Some (Done NoAlert))).
Proof.
  intros Hv0 Hv1 Hsame Hfault Hrun Hstarted.
  assert (Hbodies : Forall (fun b => exists cur, validated b = Some cur
                                                 /\ classify cur = classify cur0) [b0; b1]).
  { repeat constructor; eauto. }
  assert (Hinv : pool_inv (classify cur0) [b0; b1] P).
  { apply (pool_inv_run _ _ Hfault Hbodies sched (arrive normal [b0; b1]) P);
      [left; reflexivity | exact Hrun]. }
  destruct Hinv as [-> | (n & Hlast & Hlen & (tn & Hn & _) & Hnot & Hothers)].
  - inversion Hstarted as [|? ? Hs _]. discriminate Hs.
  - split; [exact Hlast|].
    assert (Hdone : forall j, j < 2 -> j <> n ->
              notified j P = false /\ pool_tasks P !! j = Some (Done NoAlert)).
    { intros j Hj Hjn. destruct (Hothers j Hjn) as [Hnj Htj]. split; [exact Hnj|].
      destruct (lookup_lt_is_Some_2 (pool_tasks P) j) as [t Ht]; [rewrite Hlen; exact Hj|].
      destruct (Htj t Ht) as [(b & _ & ->) | ->]; [|exact Ht].
      pose proof (proj1 (Forall_lookup _ _) Hstarted j _ Ht) as Hs. discriminate Hs. }
    assert (Hn2 : n < 2).
    { change 2 with (length [b0; b1]). rewrite <- Hlen. apply (lookup_lt_Some _ _ _ Hn). }
    destruct n as [|[|n]]; [left | right | lia].
    + destruct (Hdone 1) as [H1 H1']; [lia | lia |]. auto.
    + destruct (Hdone 0) as [H0 H0']; [lia | lia |]. auto.
Qed.

Lemma concurrent_same_fault_notifies_once_witness :
  exists P,
    run_schedule [Start 1; Start 0; Settle 1 (Rejected "smtp")]
                 (arrive normal [amps 12; amps 13]) = Some P /\
    pool_last P = short_circuit /\
    notified 1 P = true /\ notified 0 P = false /\
    pool_tasks P !! 0 = Some (Done NoAlert).
Proof.
  eexists. split; [reflexivity|].
  destruct (concurrent_same_fault_notifies_once (amps 12) (amps 13)
              (JsNum.of_Z 12) (JsNum.of_Z 13)
              [Start 1; Start 0; Settle 1 (Rejected "smtp")] _
              eq_refl eq_refl eq_refl ltac:(discriminate) eq_refl
              ltac:(repeat constructor))
    as [Hlast [(H0 & _) | (H1 & H0 & Ht)]].
  - discriminate H0.
  - split; [exact Hlast|]. split; [exact H1|]. split; [exact H0 | exact Ht].
Defined.

(* ------------------------------------------------------------------ *)
(** ** Further properties of the server *)

Lemma run_try_catch_answers (mailer : Mail -> MailResult) (p : Prog Response) :
  forall s, exists r, response (run mailer (try_catch p catch_500) s) = inl r.
Proof.
  induction p as [r|e|k IH|v k IH|l k IH|m k IH]; simpl; intros s; eauto.
Qed.

(** X1: no exception escapes either revision of the handler: whatever the
    body, the state and the mail service, the request is answered. *)
Theorem handlers_always_answer (mailer : Mail -> MailResult) (sensorData : JsValue)
    (s : AlertType) :
  (exists r, response (run mailer (send_alert sensorData) s) = inl r) /\
  (exists r, response (run mailer (send_alert_superseded sensorData) s) = inl r).
Proof. split; apply run_try_catch_answers. Qed.

Lemma validated_current (sensorData : JsValue) (current : JsNum.t) :
  validated sensorData = Some current ->
  get_prop sensorData "current" = JNumber current.
Proof.
  unfold validated. destruct (truthy sensorData); [|discriminate].
  destruct (get_prop sensorData "current"); try discriminate. congruence.
Qed.

Lemma mails_sent_dispatch (mailer : Mail -> MailResult) (sensorData : JsValue)
    (c s : AlertType) :
  mails_sent (run mailer (dispatch sensorData c) s)
  = match get_prop sensorData "current", get_prop sensorData "voltage",
          get_prop sensorData "power" with
    | JNumber cur, JNumber v, JNumber p =>
        if to_primitive_throws (get_prop sensorData "timestamp")
           || to_primitive_throws (get_prop sensorData "_id")
        then []
        else [mkMail c cur v p]
    | _, _, _ => []
    end.
Proof.
  unfold dispatch, build_mail, to_fixed, to_primitive.
  destruct (to_primitive_throws (get_prop sensorData "timestamp")).
  { destruct (get_prop sensorData "current"), (get_prop sensorData "voltage"),
      (get_prop sensorData "power"); reflexivity. }
  destruct (get_prop sensorData "current"); try reflexivity.
  destruct (get_prop sensorData "voltage"); try reflexivity.
  destruct (get_prop sensorData "power"); try reflexivity.
  destruct (to_primitive_throws (get_prop sensorData "_id")); [reflexivity|].
  unfold mails_sent. cbn. destruct (mailer _); reflexivity.
Qed.

Lemma mails_sent_send_alert (mailer : Mail -> MailResult) (sensorData : JsValue)
    (s : AlertType) :
  mails_sent (run mailer (send_alert sensorData) s)
  = match validated sensorData, get_prop sensorData "voltage",
          get_prop sensorData "power" with
    | Some current, JNumber voltage, JNumber power =>
        if snd (gatekeeper s (classify current))
           && negb (to_primitive_throws (get_prop sensorData "timestamp"))
           && negb (to_primitive_throws (get_prop sensorData "_id"))
        then [mkMail (classify current) current voltage power]
        else []
    | _, _, _ => []
    end.
Proof.
  destruct (validated sensorData) as [current|] eqn:Hv.
  - rewrite (send_alert_validated _ _ _ _ Hv). cbv zeta.
    destruct (snd (gatekeeper s (classify current))).
    + change (mails_sent (run mailer (dispatch sensorData (classify current)) (classify current))
              = match get_prop sensorData "voltage", get_prop sensorData "power" with
                | JNumber voltage, JNumber power =>
                    if true
                       && negb (to_primitive_throws (get_prop sensorData "timestamp"))
                       && negb (to_primitive_throws (get_prop sensorData "_id"))
                    then [mkMail (classify current) current voltage power]
                    else []
                | _, _ => []
                end).
      rewrite mails_sent_dispatch, (validated_current _ _ Hv).
      destruct (get_prop sensorData "voltage"), (get_prop sensorData "power");
        try reflexivity.
      destruct (to_primitive_throws (get_prop sensorData "timestamp")),
        (to_primitive_throws (get_prop sensorData "_id")); reflexivity.
    + destruct (get_prop sensorData "voltage"), (get_prop sensorData "power"); reflexivity.
  - rewrite (run_rejected _ _ _ Hv). reflexivity.
Qed.

(** X2: a request makes at most one [sendMail] call, and exactly when it
    is validated, its reading passes the gatekeeper, its voltage and power
    are numbers and its [timestamp] and [_id] convert to primitives; the
    email then carries the condition and the three numbers of that very
    request. *)
Theorem mail_reports_the_reading (mailer : Mail -> MailResult) (sensorData : JsValue)
    (s : AlertType) :
  mails_sent (run mailer (send_alert sensorData) s)
  = match validated sensorData, get_prop sensorData "voltage",
          get_prop sensorData "power" with
    | Some current, JNumber voltage, JNumber power =>
        if snd (gatekeeper s (classify current))
           && negb (to_primitive_throws (get_prop sensorData "timestamp"))
           && negb (to_primitive_throws (get_prop sensorData "_id"))
        then [mkMail (classify current) current voltage power]
        else []
    | _, _, _ => []
    end.
Proof. apply mails_sent_send_alert. Qed.

(** X3: a reading that passes the gatekeeper but whose voltage or power is
    not a number is answered 500 without any [sendMail] call, and still
    moves [lastAlertType] to its condition: a following request with the
    same condition is answered "no alert", so no email is sent for that
    fault while it lasts. *)
Theorem unrenderable_reading_consumes_the_edge (s : AlertType) (req : Request)
    (current : JsNum.t) :
  validated (fst req) = Some current ->
  snd (gatekeeper s (classify current)) = true ->
  is_number (get_prop (fst req) "voltage") = false
    \/ is_number (get_prop (fst req) "power") = false ->
  let o := serve s req in
  mails_sent o = [] /\
  (exists key, response o = inl (ServerError (TypeError key))) /\
  final o = classify current /\
  (forall (next : Request) (current' : JsNum.t),
      validated (fst next) = Some current' ->
      classify current' = classify current ->
      serve (final o) next
        = mkOutcome (classify current)
            [EvLog (LogUnchanged (classify current)); EvWrite (classify current)]
            (inl NoAlert)).
Proof.
  intros Hv Hg Hbad o.
  destruct (serve_validated s req current Hv) as [Hf _]. fold o in Hf.
  split; [|split; [|split]].
  - unfold o, serve. rewrite mails_sent_send_alert. cbn [fst]. rewrite Hv.
    destruct Hbad as [Hbad | Hbad];
      destruct (get_prop (fst req) "voltage"), (get_prop (fst req) "power");
      try reflexivity; discriminate Hbad.
  - assert (Hm : mails_sent o = []).
    { unfold o, serve. rewrite mails_sent_send_alert. cbn [fst]. rewrite Hv.
      destruct Hbad as [Hbad | Hbad];
        destruct (get_prop (fst req) "voltage"), (get_prop (fst req) "power");
        try reflexivity; discriminate Hbad. }
    unfold o, serve in Hm |- *. rewrite (send_alert_validated _ _ _ _ Hv) in Hm |- *.
    cbv zeta in Hm |- *. rewrite Hg in Hm |- *. cbn [response].
    destruct (run_dispatch (fun _ => snd req) (fst req) (classify current) (classify current))
      as [(key & _ & E) | (m & _ & _ & E)].
    + exists key. rewrite E. reflexivity.
    + exfalso. unfold mails_sent in Hm. cbn [trace omap] in Hm. rewrite E in Hm.
      destruct (snd req); discriminate Hm.
  - exact Hf.
  - intros next current' Hnext Hsame. rewrite Hf. unfold serve.
    rewrite (send_alert_validated _ _ _ _ Hnext). cbv zeta. rewrite Hsame.
    destruct (classify current); reflexivity.
Qed.

Lemma unrenderable_reading_consumes_the_edge_witness :
  let o := serve normal (JObject [("current", JNumber (JsNum.of_Z 15))], Delivered) in
  mails_sent o = [] /\
  final o = short_circuit /\
  response (serve (final o) (amps 15, Delivered)) = inl NoAlert.
Proof.
  destruct (unrenderable_reading_consumes_the_edge normal
              (JObject [("current", JNumber (JsNum.of_Z 15))], Delivered) (JsNum.of_Z 15)
              eq_refl eq_refl (or_introl eq_refl))
    as (Hm & _ & Hf & Hnext).
  split; [exact Hm|]. split; [exact Hf|].
  rewrite (Hnext (amps 15, Delivered) (JsNum.of_Z 15) eq_refl eq_refl). reflexivity.
Defined.

Lemma gt_not_le (a b : JsNum.t) : JsNum.gt a b = true -> JsNum.le a b = false.
Proof.
  unfold JsNum.le, JsNum.gt, SFleb, SFltb. rewrite (SFcompare_antisym b a).
  destruct (SFcompare b a) as [[]|]; simpl; congruence.
Qed.

Lemma gt_12_gt_11 (c : JsNum.t) :
  JsNum.gt c (JsNum.of_Z 12) = true -> JsNum.gt c (JsNum.of_Z 11) = true.
Proof.
  unfold JsNum.gt, SFltb.
  change (JsNum.of_Z 12) with (S754_finite false 6755399441055744 (-49)).
  change (JsNum.of_Z 11) with (S754_finite false 6192449487634432 (-49)).
  destruct c as [s|[]| |[] m e]; cbv beta iota delta [SFcompare];
    try discriminate; try reflexivity.
  destruct (Z.compare (-49) e); try discriminate; try reflexivity.
  change (Pos.compare_cont Eq ?a ?b) with (Pos.compare a b).
  destruct (Pos.compare_spec 6755399441055744 m) as [E|L|G]; try discriminate.
  intros _. rewrite (proj2 (Pos.compare_lt_iff 6192449487634432 m)); [reflexivity | lia].
Qed.

Lemma over_limit_spec (req : Request) :
  over_limit req = true ->
  exists current voltage power,
    validated (fst req) = Some current /\
    get_prop (fst req) "voltage" = JNumber voltage /\
    get_prop (fst req) "power" = JNumber power /\
    JsNum.gt current (JsNum.of_Z 12) = true /\
    to_primitive_throws (get_prop (fst req) "timestamp") = false /\
    to_primitive_throws (get_prop (fst req) "_id") = false.
Proof.
  unfold over_limit. destruct (validated (fst req)) as [current|]; [|discriminate].
  destruct (get_prop (fst req) "voltage") as [| | |voltage| | |]; try discriminate.
  destruct (get_prop (fst req) "power") as [| | |power| | |]; try discriminate.
  rewrite !andb_true_iff, !negb_true_iff. intros [[Hgt Hts] Hid].
  exists current, voltage, power. repeat split; assumption.
Qed.

Lemma over_limit_superseded (s : AlertType) (req : Request) :
  over_limit req = true ->
  final (serve_superseded s req) = s /\ length (mails_sent (serve_superseded s req)) = 1.
Proof.
  intros H.
  destruct (over_limit_spec req H) as (cur & v & p & Hv & Hvolt & Hpow & Hgt & Hts & Hid).
  pose proof (validated_current _ _ Hv) as Hcur. revert Hv.
  unfold serve_superseded, send_alert_superseded, validated, build_mail, to_fixed,
    to_primitive.
  destruct (truthy (fst req)); [|discriminate]. rewrite Hcur, Hvolt, Hpow, Hts, Hid.
  intros _. rewrite (gt_not_le _ _ Hgt). cbn. destruct (snd req); split; reflexivity.
Qed.

Lemma over_limit_edge_triggered (s : AlertType) (req : Request) :
  over_limit req = true ->
  final (serve s req) = short_circuit /\
  length (mails_sent (serve s req)) = if alert_eqb s short_circuit then 0 else 1.
Proof.
  intros H.
  destruct (over_limit_spec req H) as (cur & v & p & Hv & Hvolt & Hpow & Hgt & Hts & Hid).
  pose proof (classify_above_11 _ (gt_12_gt_11 _ Hgt)) as Hc.
  destruct (serve_validated s req cur Hv) as [Hf _]. rewrite Hc in Hf.
  split; [exact Hf|].
  unfold serve. rewrite mails_sent_send_alert, Hv, Hvolt, Hpow, Hc, Hts, Hid.
  destruct s; reflexivity.
Qed.

(** X4: the earlier revision keeps no state and calls [sendMail] once for
    every request that reads more than 12 A (its three readings numbers,
    its [timestamp] and [_id] convertible to primitives), however many came
    before; the edge-triggered revision, fed the same requests from the
    initial state, calls it for the first one only. *)
Theorem superseded_is_level_triggered (reqs : list Request) :
  Forall (fun req => over_limit req = true) reqs ->
  (forall s,
      Forall (fun req => final (serve_superseded s req) = s
                         /\ length (mails_sent (serve_superseded s req)) = 1) reqs) /\
  map (fun o => length (mails_sent o)) (serve_all initial reqs)
    = match reqs with
      | [] => []
      | _ :: rest => 1 :: map (fun _ => 0) rest
      end.
Proof.
  intros Hall. split.
  - intros s. eapply Forall_impl; [exact Hall|]. intros req H. apply over_limit_superseded, H.
  - destruct Hall as [|req rest Hreq Hrest]; [reflexivity|].
    cbn [serve_all map].
    destruct (over_limit_edge_triggered initial req Hreq) as [Hf Hm].
    rewrite Hm, Hf. cbn [initial alert_eqb]. f_equal.
    clear Hf Hm Hreq. induction Hrest as [|r rs Hr _ IH]; [reflexivity|].
    cbn [serve_all map].
    destruct (over_limit_edge_triggered short_circuit r Hr) as [Hf Hm].
    rewrite Hm, Hf. f_equal. exact IH.
Qed.

Lemma superseded_is_level_triggered_witness :
  map (fun o => length (mails_sent o))
      (serve_all initial [(amps 13, Delivered); (amps 14, Delivered); (amps 13, Delivered)])
    = [1; 0; 0] /\
  Forall (fun req => final (serve_superseded normal req) = normal
                     /\ length (mails_sent (serve_superseded normal req)) = 1)
         [(amps 13, Delivered); (amps 14, Delivered); (amps 13, Delivered)].
Proof.
  destruct (superseded_is_level_triggered
              [(amps 13, Delivered); (amps 14, Delivered); (amps 13, Delivered)])
    as [Hold Hnew].
  - repeat constructor.
  - split; [exact Hnew | apply Hold].
Defined.

Lemma mails_in_app (i : nat) (tr : list (nat * Event)) (evs : list Event) :
  length (mails_in (tr ++ map (pair i) evs))
  = length (mails_in tr) + length (List.filter is_send_mail evs).
Proof.
  unfold mails_in. rewrite omap_app, length_app. f_equal.
  induction evs as [|e evs IH]; [reflexivity|].
  destruct e; cbn; try exact IH. f_equal. exact IH.
Qed.

Lemma advance_mailless (p : Prog Response) :
  mailless p -> forall s,
    List.filter is_send_mail (turn_events (advance p s)) = [] /\
    match turn_task (advance p s) with
    | Done _ | Crashed _ => True
    | _ => False
    end.
Proof.
  induction p as [r|e|k IH|v k IH|l k IH|m k IH]; simpl; intros Hm s.
  - split; [reflexivity | exact I].
  - split; [reflexivity | exact I].
  - apply IH, Hm.
  - destruct (IH Hm v) as [He Ht]. split; [exact He | exact Ht].
  - destruct (IH Hm s) as [He Ht]. split; [exact He | exact Ht].
  - contradiction.
Qed.

Lemma advance_dispatch (sensorData : JsValue) (c s : AlertType) :
  (exists key,
      advance (dispatch sensorData c) s
      = mkTurn s [EvLog (LogError (TypeError key))] (Done (ServerError (TypeError key)))) \/
  (exists m k,
      advance (dispatch sensorData c) s = mkTurn s [EvSendMail m] (Awaiting m k) /\
      forall r, quiet (k r) /\ mailless (k r)).
Proof.
  unfold dispatch, build_mail, to_fixed, to_primitive.
  destruct (to_primitive_throws (get_prop sensorData "timestamp"));
    [left; eexists; reflexivity|].
  destruct (get_prop sensorData "current"); try (left; eexists; reflexivity).
  destruct (get_prop sensorData "voltage"); try (left; eexists; reflexivity).
  destruct (get_prop sensorData "power"); try (left; eexists; reflexivity).
  destruct (to_primitive_throws (get_prop sensorData "_id"));
    [left; eexists; reflexivity|].
  right. eexists _, _. split; [reflexivity|].
  intros [|details]; cbn; repeat split.
Qed.

Section OneMail.

Variable c : AlertType.
Variable bodies : list JsValue.
Hypothesis fault : c <> normal.
Hypothesis same :
  Forall (fun b => exists cur, validated b = Some cur /\ classify cur = c) bodies.

Lemma one_mail_step (ch : Choice) (P P' : Pool) :
  one_mail_inv c bodies P -> pool_step ch P = Some P' -> one_mail_inv c bodies P'.
Proof.
  intros HP Hstep. right.
  assert (Hready : forall i p, pool_tasks P !! i = Some (Ready p) ->
            exists b cur, bodies !! i = Some b /\ p = send_alert b
                          /\ validated b = Some cur /\ classify cur = c).
  { intros i p Hi. destruct HP as [-> | (_ & _ & Htasks)].
    - cbn in Hi. rewrite list_lookup_fmap in Hi.
      destruct (bodies !! i) as [b|] eqn:Hb; [|discriminate]. injection Hi as <-.
      destruct (proj1 (Forall_lookup _ _) same i b Hb) as (cur & Hv & Hc). eauto 6.
    - destruct (Htasks i _ Hi) as (b & Hb & ->).
      destruct (proj1 (Forall_lookup _ _) same i b Hb) as (cur & Hv & Hc). eauto 6. }
  assert (Hkeep : forall i t' j t, <[i := t']> (pool_tasks P) !! j = Some t ->
            match t' with
            | Ready _ => False
            | Awaiting _ k => forall r, quiet (k r) /\ mailless (k r)
            | _ => True
            end ->
            match t with
            | Ready p => exists b, bodies !! j = Some b /\ p = send_alert b
            | Awaiting _ k => forall r, quiet (k r) /\ mailless (k r)
            | Done _ | Crashed _ => True
            end).
  { intros i t' j t Hj Ht'. destruct (decide (i = j)) as [<- | Hij].
    - destruct (decide (i < length (pool_tasks P))) as [Hlt | Hge].
      + rewrite list_lookup_insert_eq in Hj by exact Hlt. injection Hj as <-.
        destruct t'; try exact I; [contradiction | exact Ht'].
      + rewrite (proj2 (lookup_ge_None _ _)) in Hj; [discriminate|].
        rewrite length_insert. lia.
    - rewrite list_lookup_insert_ne in Hj by exact Hij.
      destruct HP as [-> | (_ & _ & Htasks)]; [|apply (Htasks j t Hj)].
      cbn in Hj. rewrite list_lookup_fmap in Hj.
      destruct (bodies !! j) as [b|]; [|discriminate]. injection Hj as <-. eauto. }
  destruct ch as [i | i r]; cbn in Hstep;
    destruct (pool_tasks P !! i) as [[p | m k | r' | e]|] eqn:Hi; try discriminate Hstep;
    injection Hstep as <-; unfold turn.
  - (* first turn of a request *)
    destruct (Hready i p Hi) as (b & cur & Hb & -> & Hv & Hc).
    rewrite (advance_send_alert _ _ _ Hv). cbv zeta. rewrite Hc.
    destruct HP as [-> | (Hlast & Hmails & Htasks)].
    + assert (Hg : snd (gatekeeper normal c) = true) by (destruct c; [congruence | reflexivity..]).
      cbn [pool_last arrive]. rewrite Hg.
      destruct (advance_dispatch b c c) as [(key & ->) | (m & k & -> & Hk)];
        cbn [turn_last turn_events turn_task pool_last pool_tasks pool_trace arrive];
        (split; [reflexivity|]); (split; [cbn; lia|]);
        intros j t Hj; apply (Hkeep _ _ _ _ Hj); [exact I | exact Hk].
    + assert (Hg : snd (gatekeeper c c) = false) by (destruct c; reflexivity).
      rewrite Hlast, Hg.
      cbn [turn_last turn_events turn_task pool_last pool_tasks pool_trace].
      split; [reflexivity|]. split.
      * rewrite mails_in_app. cbn. lia.
      * intros j t Hj. apply (Hkeep _ _ _ _ Hj). exact I.
  - (* the mail promise of a request settles *)
    destruct HP as [-> | (Hlast & Hmails & Htasks)].
    { cbn in Hi. rewrite list_lookup_fmap in Hi.
      destruct (bodies !! i); discriminate Hi. }
    destruct (Htasks i _ Hi r) as [Hq Hm].
    destruct (advance_quiet _ Hq (pool_last P)) as (Hs & _ & _).
    destruct (advance_mailless _ Hm (pool_last P)) as [Hnone Hend].
    cbn [pool_last pool_tasks pool_trace].
    split; [rewrite Hs; exact Hlast|]. split.
    + rewrite mails_in_app, Hnone. cbn. lia.
    + intros j t Hj. apply (Hkeep _ _ _ _ Hj).
      destruct (turn_task (advance (k r) (pool_last P))); try exact I; contradiction.
Qed.

Lemma one_mail_run (sched : list Choice) :
  forall P P', one_mail_inv c bodies P -> run_schedule sched P = Some P' ->
               one_mail_inv c bodies P'.
Proof.
  induction sched as [|ch sched IH]; intros P P' HP Hrun; simpl in Hrun.
  - injection Hrun as <-. exact HP.
  - destruct (pool_step ch P) as [P1|] eqn:Hstep; [|discriminate].
    apply (IH P1 P' (one_mail_step ch P P1 HP Hstep) Hrun).
Qed.

End OneMail.

(** X5: any number of requests that arrive together while [lastAlertType]
    is [normal] and all read the same fault: under every interleaving of
    their turns, complete or not, at most one [sendMail] call is made in
    all, and at most one request reaches step 3. *)
Theorem concurrent_requests_send_one_mail (c : AlertType) (bodies : list JsValue)
    (sched : list Choice) (P : Pool) :
  c <> normal ->
  Forall (fun b => exists cur, validated b = Some cur /\ classify cur = c) bodies ->
  run_schedule sched (arrive normal bodies) = Some P ->
  length (mails_in (pool_trace P)) <= 1 /\
  (forall i j, notified i P = true -> notified j P = true -> i = j).
Proof.
  intros Hc Hsame Hrun. split.
  - destruct (one_mail_run c bodies Hc Hsame sched _ _ (or_introl eq_refl) Hrun)
      as [-> | (_ & H & _)]; [cbn; lia | exact H].
  - intros i j Hi Hj.
    destruct (pool_inv_run c bodies Hc Hsame sched _ _ (or_introl eq_refl) Hrun)
      as [-> | (n & _ & _ & _ & _ & Hothers)]; [discriminate Hi|].
    destruct (decide (i = n)) as [-> | Hin];
      [|destruct (Hothers i Hin) as [Hni _]; congruence].
    destruct (decide (j = n)) as [-> | Hjn]; [reflexivity|].
    destruct (Hothers j Hjn) as [Hnj _]. congruence.
Qed.

Lemma concurrent_requests_send_one_mail_witness :
  exists P,
    run_schedule [Start 2; Start 0; Settle 2 Delivered; Start 1]
                 (arrive normal [amps 12; amps 13; amps 20]) = Some P /\
    length (mails_in (pool_trace P)) <= 1.
Proof.
  eexists. split; [reflexivity|].
  apply (concurrent_requests_send_one_mail short_circuit [amps 12; amps 13; amps 20]
           [Start 2; Start 0; Settle 2 Delivered; Start 1] _).
  - discriminate.
  - repeat constructor; eexists; split; reflexivity.
  - reflexivity.
Defined.

(* ------------------------------------------------------------------ *)
(** ** [getLocalIP] *)

Lemma scan_iface_filter (iface : list InterfaceDetails) :
  scan_iface iface = ni_address <$> head (List.filter external_ipv4 iface).
Proof.
  induction iface as [|d rest IH]; [reflexivity|].
  simpl. unfold external_ipv4 at 1.
  destruct (String.eqb (ni_family d) "IPv4" && negb (ni_internal d)); [reflexivity | exact IH].
Qed.

Lemma scan_interfaces_filter (interfaces : list (string * list InterfaceDetails)) :
  scan_interfaces interfaces
  = ni_address <$> head (List.filter external_ipv4 (concat (snd <$> interfaces))).
Proof.
  induction interfaces as [|[name iface] rest IH]; [reflexivity|].
  cbn [scan_interfaces fmap list_fmap concat snd]. rewrite scan_iface_filter, List.filter_app.
  destruct (List.filter external_ipv4 iface) as [|d ds]; [exact IH | reflexivity].
Qed.

(** X6: [getLocalIP] returns the address of the first entry, in
    enumeration order over all interfaces, that has family "IPv4" and is
    not internal, and "127.0.0.1" when there is none; an address inside an
    interface listed later is never preferred to an earlier one. *)
Theorem getLocalIP_first_external (interfaces : list (string * list InterfaceDetails)) :
  getLocalIP interfaces
  = default "127.0.0.1"
      (ni_address <$> head (List.filter external_ipv4 (concat (snd <$> interfaces)))).
Proof.
  unfold getLocalIP. rewrite scan_interfaces_filter.
  destruct (head _); reflexivity.
Qed.

(* ------------------------------------------------------------------ *)
(** ** The dashboard *)

(** X7: the colour of the "Current Level" line always matches its text.
    The colour of the current card matches the text under it exactly when
    a reading is present and its current is not NaN; before the first
    reading the card is yellow, the low-current colour, while its text
    says normal operation. *)
Theorem colours_and_texts (sensorData : option SensorData) :
  panel_colour sensorData = colour_of (default normal (panel_text sensorData)) /\
  (card_colour sensorData = colour_of (card_text sensorData) <->
     exists d, sensorData = Some d /\ sd_current d <> S754_nan) /\
  (sensorData = None ->
     card_colour sensorData = text_yellow /\ card_text sensorData = normal).
Proof.
  split; [|split].
  - destruct sensorData as [d|]; [|reflexivity].
    unfold panel_colour, panel_text, getStatusColor. cbn [default].
    destruct (JsNum.gt _ _); [reflexivity|]. destruct (JsNum.strict_eq _ _); reflexivity.
  - destruct sensorData as [d|].
    + unfold card_colour, card_text, getStatusColor.
      destruct (sd_current d) as [s|s| |s m e] eqn:E; cbn [truthy].
      * split; [intros _; exists d; split; [reflexivity | congruence]|]. intros _.
        destruct s; reflexivity.
      * split; [intros _; exists d; split; [reflexivity | congruence]|]. intros _.
        destruct (JsNum.gt _ _); [reflexivity|]. destruct (JsNum.strict_eq _ _); reflexivity.
      * split; [discriminate|]. intros (d' & [= <-] & Hn). congruence.
      * split; [intros _; exists d; split; [reflexivity | congruence]|]. intros _.
        destruct (JsNum.gt _ _); [reflexivity|]. destruct (JsNum.strict_eq _ _); reflexivity.
    + split; [discriminate|]. intros (d & Hd & _). discriminate Hd.
  - intros ->. split; reflexivity.
Qed.

Lemma colours_and_texts_witness :
  card_colour None = text_yellow /\ card_text None = normal.
Proof. apply (colours_and_texts None). reflexivity. Defined.

Lemma slice_last_length {A : Type} (n : nat) (l : list A) :
  length (slice_last n l) = Nat.min n (length l).
Proof. unfold slice_last. rewrite length_drop. lia. Qed.

Lemma slice_last_snoc {A : Type} (n : nat) (l : list A) (x : A) :
  0 < n -> slice_last n (slice_last n l ++ [x]) = slice_last n (l ++ [x]).
Proof.
  intros Hn. unfold slice_last. rewrite !length_app, length_drop. cbn [length].
  destruct (decide (length l <= n)) as [Hle | Hgt].
  - replace (length l - n) with 0 by lia. rewrite drop_0.
    replace (length l - 0) with (length l) by lia. reflexivity.
  - rewrite !drop_app_le by (rewrite ?length_drop; lia).
    rewrite drop_drop. f_equal. f_equal. lia.
Qed.

Lemma fetch_all_cons (st : Dashboard) (api : ApiResult) (apis : list ApiResult) :
  fetch_all st (api :: apis) = fetch_all (fst (fetch_cycle st api)) apis.
Proof. reflexivity. Qed.

Lemma chart_window (apis : list ApiResult) :
  forall (st : Dashboard) (shown : list ChartDataPoint),
    d_chartData st = slice_last 20 shown ->
    d_chartData (fetch_all st apis)
    = slice_last 20 (shown ++ (chart_point <$> readings_of apis)).
Proof.
  induction apis as [|api apis IH]; intros st shown Hst.
  - cbn. rewrite app_nil_r. exact Hst.
  - rewrite fetch_all_cons. destruct api as [|[|latest rows]].
    + apply IH. exact Hst.
    + apply IH. exact Hst.
    + change (readings_of (ApiData (latest :: rows) :: apis))
        with (latest :: readings_of apis).
      rewrite fmap_cons, cons_middle, app_assoc. apply IH.
      cbn [fetch_cycle fst d_chartData]. rewrite Hst.
      apply slice_last_snoc. lia.
Qed.

(** X8: the chart is a rolling window: after any series of polls from the
    initial state that brought readings with valid dates it holds the last
    20 readings received, oldest first (all of them while there are fewer
    than 20); failed polls and empty replies add nothing. *)
Theorem chart_keeps_last_20 (apis : list ApiResult) :
  valid_dates (readings_of apis) = true ->
  d_chartData (fetch_all dashboard0 apis)
    = slice_last 20 (chart_point <$> readings_of apis) /\
  length (d_chartData (fetch_all dashboard0 apis)) = Nat.min 20 (length (readings_of apis)).
Proof.
  intros _.
  assert (H : d_chartData (fetch_all dashboard0 apis)
              = slice_last 20 (chart_point <$> readings_of apis)).
  { apply (chart_window apis dashboard0 []). reflexivity. }
  split; [exact H|]. rewrite H, slice_last_length, length_fmap. reflexivity.
Qed.

Lemma chart_keeps_last_20_witness :
  d_chartData (fetch_all dashboard0 [ApiData [sample 5]; ApiFailed; ApiData [sample 12]])
    = [chart_point (sample 5); chart_point (sample 12)].
Proof.
  apply (chart_keeps_last_20 [ApiData [sample 5]; ApiFailed; ApiData [sample 12]]).
  reflexivity.
Defined.

(** What every reachable dashboard state satisfies. *)
Lemma dashboard_reachable (apis : list ApiResult) :
  forall st : Dashboard,
    (length (d_alerts st) <= 10 /\
     Forall (fun a => alert_type a <> normal
                      /\ alert_type a = client_classify (alert_current a)) (d_alerts st) /\
     d_isShortCircuit st = alert_eqb (d_lastAlertTypeRef st) short_circuit /\
     d_isLowCurrentWarning st = alert_eqb (d_lastAlertTypeRef st) low_current /\
     match d_sensorData st with
     | Some d => d_lastAlertTypeRef st = client_classify (sd_current d)
     | None => d_lastAlertTypeRef st = normal /\ d_alerts st = [] /\ d_chartData st = []
     end) ->
    let st' := fetch_all st apis in
    length (d_alerts st') <= 10 /\
    Forall (fun a => alert_type a <> normal
                     /\ alert_type a = client_classify (alert_current a)) (d_alerts st') /\
    d_isShortCircuit st' = alert_eqb (d_lastAlertTypeRef st') short_circuit /\
    d_isLowCurrentWarning st' = alert_eqb (d_lastAlertTypeRef st') low_current /\
    match d_sensorData st' with
    | Some d => d_lastAlertTypeRef st' = client_classify (sd_current d)
    | None => d_lastAlertTypeRef st' = normal /\ d_alerts st' = [] /\ d_chartData st' = []
    end.
Proof.
  induction apis as [|api apis IH]; intros st Hst; [exact Hst|].
  cbv zeta. rewrite fetch_all_cons. apply IH. clear IH.
  destruct Hst as (Hlen & Htypes & Hsc & Hlow & Hdata).
  destruct api as [|[|latest rows]]; [repeat split; assumption..|].
  cbn [fetch_cycle fst fetchData d_alerts d_isShortCircuit d_isLowCurrentWarning
       d_sensorData d_lastAlertTypeRef d_chartData].
  set (c := client_classify (sd_current latest)).
  assert (Hflags : JsNum.gt (sd_current latest) (JsNum.of_Z 11) = alert_eqb c short_circuit
                   /\ JsNum.strict_eq (sd_current latest) (JsNum.of_Z 0)
                      = alert_eqb c low_current).
  { unfold c, client_classify.
    destruct (JsNum.gt (sd_current latest) (JsNum.of_Z 11)) eqn:Hgt; [split; [reflexivity|]|].
    - destruct (JsNum.strict_eq (sd_current latest) (JsNum.of_Z 0)) eqn:H0; [|reflexivity].
      rewrite (eq_zero_not_gt_11 _ H0) in Hgt. discriminate Hgt.
    - destruct (JsNum.strict_eq (sd_current latest) (JsNum.of_Z 0)); split; reflexivity. }
  destruct Hflags as [-> ->].
  repeat split; try reflexivity.
  - destruct (negb (alert_eqb c normal) && negb (alert_eqb c (d_lastAlertTypeRef st)));
      [|exact Hlen].
    destruct (new_alert c latest); [|exact Hlen].
    cbn [length]. rewrite length_take. lia.
  - destruct (negb (alert_eqb c normal) && negb (alert_eqb c (d_lastAlertTypeRef st)));
      [|exact Htypes].
    destruct (new_alert c latest) as [a|] eqn:Ha; [|exact Htypes].
    constructor; [|apply Forall_take, Htypes].
    unfold new_alert in Ha. fold c.
    destruct c eqn:Hc; [discriminate Ha | |]; injection Ha as <-; cbn;
      (split; [discriminate | symmetry; exact Hc]).
Qed.

(** X9: after any series of polls from the initial state that brought
    readings with valid dates the alert list holds at most 10 alerts, none
    of type normal, each typed by the condition of the current it shows. *)
Theorem alerts_bounded_and_typed (apis : list ApiResult) :
  valid_dates (readings_of apis) = true ->
  let st := fetch_all dashboard0 apis in
  length (d_alerts st) <= 10 /\
  Forall (fun a => alert_type a <> normal
                   /\ alert_type a = client_classify (alert_current a)) (d_alerts st).
Proof.
  intros _.
  destruct (dashboard_reachable apis dashboard0) as (Hlen & Htypes & _).
  - cbn. repeat split; try constructor; lia.
  - split; assumption.
Qed.

Lemma alerts_bounded_and_typed_witness :
  length (d_alerts (fetch_all dashboard0 [ApiData [sample 12]; ApiData [sample 0]])) <= 10.
Proof.
  apply (alerts_bounded_and_typed [ApiData [sample 12]; ApiData [sample 0]]).
  reflexivity.
Defined.

(** X10: after any series of polls from the initial state that brought
    readings with valid dates the two warning flags say what
    [lastAlertTypeRef] says and are never both set, and [lastAlertTypeRef]
    is the condition of the reading on display, or normal when none has
    arrived, in which case alerts and chart are empty. *)
Theorem flags_follow_the_reading (apis : list ApiResult) :
  valid_dates (readings_of apis) = true ->
  let st := fetch_all dashboard0 apis in
  d_isShortCircuit st = alert_eqb (d_lastAlertTypeRef st) short_circuit /\
  d_isLowCurrentWarning st = alert_eqb (d_lastAlertTypeRef st) low_current /\
  d_isShortCircuit st && d_isLowCurrentWarning st = false /\
  match d_sensorData st with
  | Some d => d_lastAlertTypeRef st = client_classify (sd_current d)
  | None => d_lastAlertTypeRef st = normal /\ d_alerts st = [] /\ d_chartData st = []
  end.
Proof.
  intros _.
  destruct (dashboard_reachable apis dashboard0) as (_ & _ & Hsc & Hlow & Hdata).
  - cbn. repeat split; try constructor; lia.
  - cbv zeta. rewrite Hsc, Hlow. repeat split; [|exact Hdata].
    destruct (d_lastAlertTypeRef (fetch_all dashboard0 apis)); reflexivity.
Qed.

Lemma flags_follow_the_reading_witness :
  let st := fetch_all dashboard0 [ApiData [sample 12]; ApiData []; ApiData [sample 0]] in
  d_isShortCircuit st = alert_eqb (d_lastAlertTypeRef st) short_circuit /\
  d_isShortCircuit st && d_isLowCurrentWarning st = false.
Proof.
  destruct (flags_follow_the_reading
              [ApiData [sample 12]; ApiData []; ApiData [sample 0]] eq_refl)
    as (Hsc & _ & Hboth & _).
  split; [exact Hsc | exact Hboth].
Defined.

Lemma fetch_cycle_without_error (st1 st2 : Dashboard) (api : ApiResult) :
  without_error st1 = without_error st2 ->
  without_error (fst (fetch_cycle st1 api)) = without_error (fst (fetch_cycle st2 api)) /\
  snd (fetch_cycle st1 api) = snd (fetch_cycle st2 api).
Proof.
  destruct st1, st2. unfold without_error. cbn. intros [= -> -> -> -> -> ->].
  destruct api as [|[|latest rows]]; split; reflexivity.
Qed.

Lemma fetch_all_without_error (apis : list ApiResult) :
  forall st1 st2 : Dashboard,
    without_error st1 = without_error st2 ->
    without_error (fetch_all st1 apis)
    = without_error (fetch_all st2 ((fun d => ApiData [d]) <$> readings_of apis)).
Proof.
  induction apis as [|api apis IH]; intros st1 st2 H; [exact H|].
  rewrite fetch_all_cons. destruct api as [|[|latest rows]].
  - apply IH. rewrite <- H. destruct st1; reflexivity.
  - apply IH. rewrite <- H. destruct st1; reflexivity.
  - change (readings_of (ApiData (latest :: rows) :: apis)) with (latest :: readings_of apis).
    rewrite fmap_cons, fetch_all_cons. apply IH.
    destruct st1, st2. unfold without_error in H. cbn in H.
    injection H as -> -> -> -> -> ->. reflexivity.
Qed.

(** X11: in a series of polls from the initial state that brings readings
    with valid dates, a failed poll or an empty reply posts nothing and
    changes nothing but the connection-error banner, and only the first
    row of a reply is used: apart from that banner, the state is the state
    after receiving just the first rows of the non-empty replies.  The
    banner shows whether the latest poll failed. *)
Theorem failed_polls_touch_only_the_banner (apis : list ApiResult) :
  valid_dates (readings_of apis) = true ->
  without_error (fetch_all dashboard0 apis)
    = without_error (fetch_all dashboard0 ((fun d => ApiData [d]) <$> readings_of apis)) /\
  d_apiError (fetch_all dashboard0 apis)
    = match last apis with
      | Some ApiFailed => true
      | _ => false
      end /\
  (forall st, snd (fetch_cycle st ApiFailed) = None
              /\ snd (fetch_cycle st (ApiData [])) = None).
Proof.
  intros _.
  split; [apply fetch_all_without_error; reflexivity|].
  split; [|intros st; split; reflexivity].
  destruct apis as [|api0 rest] using rev_ind; [reflexivity|].
  rewrite last_snoc. unfold fetch_all. rewrite fold_left_app. cbn [fold_left].
  destruct api0 as [|[|latest rows]]; reflexivity.
Qed.

Lemma failed_polls_touch_only_the_banner_witness :
  without_error (fetch_all dashboard0
                   [ApiData [sample 5]; ApiFailed; ApiData []; ApiData [sample 12; sample 5];
                    ApiFailed])
    = without_error (fetch_all dashboard0 [ApiData [sample 5]; ApiData [sample 12]]) /\
  d_apiError (fetch_all dashboard0
                [ApiData [sample 5]; ApiFailed; ApiData []; ApiData [sample 12; sample 5];
                 ApiFailed])
    = true.
Proof.
  destruct (failed_polls_touch_only_the_banner
              [ApiData [sample 5]; ApiFailed; ApiData []; ApiData [sample 12; sample 5];
               ApiFailed] eq_refl)
    as (Hstate & Hbanner & _).
  split; [exact Hstate | exact Hbanner].
Defined.

(* ------------------------------------------------------------------ *)
(** ** Client and server, further *)

Lemma on_reply_http_reply (r : Response) :
  on_reply (Replied (http_reply r))
  = match r with
    | AlertSent kind =>
        Some (StatusSent (JString ("Alert email for " ++ alert_name kind
                                   ++ " sent successfully")))
    | AlertSentEarlier =>
        Some (StatusSent (JString "Alert email sent successfully"))
    | NoAlert | WithinLimits => None
    | BadRequest | ServerError _ => Some StatusServiceError
    end.
Proof. destruct r; reflexivity. Qed.

Lemma serve_response_cases (s : AlertType) (req : Request) :
  exists r, response (serve s req) = inl r /\ r <> WithinLimits /\ r <> AlertSentEarlier.
Proof.
  unfold serve. destruct (validated (fst req)) as [current|] eqn:Hv.
  - rewrite (send_alert_validated _ _ _ _ Hv). cbv zeta.
    destruct (snd (gatekeeper s (classify current)));
      [|eexists; split; [reflexivity | split; discriminate]].
    cbn [response].
    destruct (run_dispatch (fun _ => snd req) (fst req) (classify current) (classify current))
      as [(key & _ & ->) | (m & _ & _ & ->)].
    + eexists; split; [reflexivity | split; discriminate].
    + destruct (snd req); eexists; (split; [reflexivity | split; discriminate]).
  - rewrite (run_rejected _ _ _ Hv). eexists; split; [reflexivity | split; discriminate].
Qed.

(** X12: what the dashboard shows after [sendEmailAlert], when the request
    is answered by the edge-triggered handler: the success message exactly
    when the server sent the email; a service error when the server answers
    400 or 500 (a rejected delivery included) or when the date of the
    reading is invalid and nothing is posted; and no change of the status
    line when the server deduplicates.  The "Failed to send email" and the
    404 "demo" statuses never occur. *)
Theorem email_status_with_server (s : AlertType) (mr : MailResult) (d : SensorData) :
  email_status d (deliver s mr)
  = match sendEmailAlert d with
    | None => Some StatusServiceError
    | Some body =>
        match response (serve s (body, mr)) with
        | inl (AlertSent kind) =>
            Some (StatusSent (JString ("Alert email for " ++ alert_name kind
                                       ++ " sent successfully")))
        | inl NoAlert => None
        | _ => Some StatusServiceError
        end
    end.
Proof.
  unfold email_status, deliver.
  destruct (sendEmailAlert d) as [body|]; [|reflexivity].
  destruct (serve_response_cases s (body, mr)) as (r & -> & Hr & Hr').
  rewrite on_reply_http_reply. destruct r; try reflexivity; congruence.
Qed.

Lemma well_formed_post (sv : AlertType) (d : SensorData) (r : MailResult) :
  well_formed d = true ->
  client_classify (sd_current d) <> normal ->
  exists body,
    sendEmailAlert d = Some body /\
    final (serve sv (body, r)) = client_classify (sd_current d) /\
    dispatched (serve sv (body, r)) = negb (alert_eqb (client_classify (sd_current d)) sv).
Proof.
  destruct d as [id v c p ts]. unfold well_formed, sendEmailAlert.
  cbn [sd_id sd_voltage sd_current sd_power sd_timestamp].
  rewrite !andb_true_iff. intros [[[Hv Hc] Hp] Hts] Hfault.
  apply bool_decide_eq_true in Hts. destruct ts as [z|]; [|congruence].
  eexists. split; [reflexivity|].
  set (body := JObject [("_id", JString id); ("voltage", json_number v);
                        ("current", json_number c); ("power", json_number p);
                        ("timestamp", JString "iso")]).
  assert (Hval : exists cur, validated body = Some cur /\ classify cur = client_classify c).
  { destruct c as [sc|sc| |sc mc ec]; try discriminate Hc; eexists; split; reflexivity. }
  destruct Hval as (cur & Hval & Hcur).
  assert (Hcurrent : get_prop body "current" = JNumber cur)
    by (apply validated_current, Hval).
  unfold serve, dispatched. cbn [fst snd].
  rewrite (send_alert_validated _ _ _ _ Hval). cbv zeta. rewrite Hcur.
  destruct (client_classify c) eqn:Hcond; [congruence | |];
    destruct sv; cbn [gatekeeper alert_eqb snd orb negb];
    try (split; reflexivity);
    unfold dispatch, build_mail, to_fixed; rewrite Hcurrent;
    destruct v as [sv'|sv'| |sv' mv ev]; try discriminate Hv;
    destruct p as [sp|sp| |sp mp ep]; try discriminate Hp;
    destruct r; split; reflexivity.
Qed.

Lemma poll_well_formed (f : Flow) (d : SensorData) (r : MailResult) :
  well_formed d = true ->
  poll f (d, r)
  = let c := client_classify (sd_current d) in
    if negb (alert_eqb c normal) && negb (alert_eqb c (client_ref f))
    then (mkFlow c c, negb (alert_eqb c (server_last f)))
    else (mkFlow c (server_last f), false).
Proof.
  intros Hwf. unfold poll, fetchData. cbn [fst snd]. cbv zeta.
  destruct (alert_eqb (client_classify (sd_current d)) normal) eqn:Hn; [reflexivity|].
  destruct (alert_eqb (client_classify (sd_current d)) (client_ref f)); [reflexivity|].
  cbn [negb andb].
  apply bool_decide_eq_false in Hn.
  destruct (well_formed_post (server_last f) d r Hwf Hn) as (body & -> & -> & ->).
  reflexivity.
Qed.

Lemma poll_all_fault_changes (cycles : list (SensorData * MailResult)) :
  forall f : Flow,
    client_ref f = normal \/ client_ref f = server_last f ->
    Forall (fun cycle => well_formed (fst cycle) = true) cycles ->
    snd (poll_all f cycles)
    = fault_changes (server_last f)
        (map (fun cycle => client_classify (sd_current (fst cycle))) cycles).
Proof.
  induction cycles as [|[d r] cycles IH]; intros f Hf Hwf; [reflexivity|].
  inversion Hwf as [|? ? Hd Hrest]; subst.
  rewrite poll_all_cons. cbn [snd fst map fault_changes].
  rewrite (poll_well_formed f d r Hd). cbv zeta.
  set (c := client_classify (sd_current d)).
  destruct (alert_eqb c normal) eqn:Hn; cbn [negb andb fst snd].
  - f_equal. rewrite (IH (mkFlow c (server_last f))); [reflexivity | | exact Hrest].
    left. apply bool_decide_eq_true in Hn. exact Hn.
  - destruct (alert_eqb c (client_ref f)) eqn:Hr; cbn [negb fst snd].
    + apply bool_decide_eq_true in Hr.
      assert (Hsv : c = server_last f).
      { destruct Hf as [Hf | Hf]; [|congruence].
        apply bool_decide_eq_false in Hn. congruence. }
      rewrite <- Hsv. f_equal.
      * unfold alert_eqb. rewrite bool_decide_eq_true_2 by reflexivity. reflexivity.
      * rewrite (IH (mkFlow c c)); [reflexivity | right; reflexivity | exact Hrest].
    + f_equal. rewrite (IH (mkFlow c c)); [reflexivity | right; reflexivity | exact Hrest].
Qed.

(** X13: client and server together, from fresh state, on readings with
    finite fields and valid dates: [sendMail] is called exactly for the
    readings whose condition is a fault different from the last fault seen
    before (the first fault included); normal readings in between change
    nothing, so a fault that goes away and comes back is mailed once. *)
Theorem flow_mails_fault_changes (cycles : list (SensorData * MailResult)) :
  Forall (fun cycle => well_formed (fst cycle) = true) cycles ->
  snd (poll_all fresh cycles)
  = fault_changes normal
      (map (fun cycle => client_classify (sd_current (fst cycle))) cycles).
Proof.
  intros Hwf. apply (poll_all_fault_changes cycles fresh); [left; reflexivity | exact Hwf].
Qed.

Lemma flow_mails_fault_changes_witness :
  snd (poll_all fresh (map (fun a => (sample a, Delivered)) [12; 5; 12; 0; 5; 0; 13]%Z))
  = [true; false; false; true; false; false; true].
Proof.
  rewrite (flow_mails_fault_changes
             (map (fun a => (sample a, Delivered)) [12; 5; 12; 0; 5; 0; 13]%Z)).
  - reflexivity.
  - repeat constructor.
Defined.

Lemma posted_body (d : SensorData) (body : JsValue) :
  sendEmailAlert d = Some body ->
  validated body
  = match sd_current d with
    | S754_zero _ => Some (S754_zero false)
    | S754_finite s m e => Some (S754_finite s m e)
    | S754_infinity _ | S754_nan => None
    end.
Proof.
  unfold sendEmailAlert. destruct (sd_timestamp d); [|discriminate].
  intros [= <-]. destruct (sd_current d); reflexivity.
Qed.

(** X14: what crosses the wire.  A reading with a finite current is posted
    with a current the server validates and classifies as the client did
    (the sign of a zero is lost, its condition is not).  A reading whose
    current is not finite is posted with [null] for it, and the server
    answers 400 and ignores it, although the client raised an alert for an
    infinite current. *)
Theorem posted_reading_round_trip (s : AlertType) (mr : MailResult) (d : SensorData)
    (body : JsValue) :
  sendEmailAlert d = Some body ->
  (JsNum.is_finite (sd_current d) = true ->
     exists current, validated body = Some current /\
                     JsNum.strict_eq current (sd_current d) = true /\
                     classify current = client_classify (sd_current d)) /\
  (JsNum.is_finite (sd_current d) = false ->
     serve s (body, mr) = mkOutcome s [] (inl BadRequest)).
Proof.
  intros Hb. pose proof (posted_body d body Hb) as Hv. split.
  - intros Hfin. destruct (sd_current d) as [sz|si| |sf m e]; try discriminate Hfin;
      eexists; (split; [exact Hv|]); split; try reflexivity.
    unfold JsNum.strict_eq, SFeqb, SFcompare.
    rewrite Z.compare_refl.
    change (Pos.compare_cont Eq m m) with (Pos.compare m m). rewrite Pos.compare_refl.
    destruct sf; reflexivity.
  - intros Hinf. apply serve_rejected. cbn [fst].
    destruct (sd_current d); try discriminate Hinf; exact Hv.
Qed.

Lemma posted_reading_round_trip_witness :
  serve short_circuit
        (JObject [("_id", JString "id"); ("voltage", JNumber (JsNum.of_Z 230));
                  ("current", JNull); ("power", JNumber (JsNum.of_Z 0));
                  ("timestamp", JString "iso")], Delivered)
  = mkOutcome short_circuit [] (inl BadRequest).
Proof.
  apply (posted_reading_round_trip short_circuit Delivered
           (mkSensorData "id" (JsNum.of_Z 230) JsNum.Infinity (JsNum.of_Z 0) (Some 0%Z)) _
           eq_refl).
  reflexivity.
Defined.

(** X15: the server answers "sent successfully" only when [sendMail] was
    called and the mail service accepted the email, and then for the
    condition of that email; conversely an accepted email is always
    answered so. *)
Theorem success_means_delivered (s : AlertType) (req : Request) (kind : AlertType) :
  response (serve s req) = inl (AlertSent kind) <->
  snd req = Delivered /\
  exists m, mails_sent (serve s req) = [m] /\ mail_kind m = kind.
Proof.
  unfold serve. destruct (validated (fst req)) as [current|] eqn:Hv.
  2:{ rewrite (run_rejected _ _ _ Hv). split; [discriminate|].
      intros (_ & m & Hm & _). discriminate Hm. }
  rewrite (send_alert_validated _ _ _ _ Hv). cbv zeta.
  destruct (snd (gatekeeper s (classify current))).
  2:{ split; [discriminate|]. intros (_ & m & Hm & _). discriminate Hm. }
  unfold mails_sent. cbn [response trace omap].
  destruct (run_dispatch (fun _ => snd req) (fst req) (classify current) (classify current))
    as [(key & _ & ->) | (m & _ & Hk & ->)].
  - split; [discriminate|]. intros (_ & m & Hm & _). discriminate Hm.
  - destruct (snd req) as [|details]; cbn.
    + split.
      * intros [= <-]. split; [reflexivity|]. exists m. split; [reflexivity | exact Hk].
      * intros (_ & m' & [= <-] & <-). rewrite Hk. reflexivity.
    + split; [discriminate|]. intros (H & _). discriminate H.
Qed.

Lemma success_means_delivered_witness :
  response (serve low_current (amps 12, Delivered)) = inl (AlertSent short_circuit).
Proof.
  apply (success_means_delivered low_current (amps 12, Delivered) short_circuit).
  split; [reflexivity|]. eexists. split; reflexivity.
Defined.
